(** * telebot: webhook ingestion and graceful shutdown

    A shallow embedding of [telebot/graceful_shutdown.py] and of the request
    handler of [telebot/webhook.py], and the properties of the two modules.

    Python code that mutates objects and raises exceptions is written in a
    state-and-exception monad over an explicit process state.  Coroutines are
    run to completion: an [await] is an ordinary call, except for
    [asyncio.sleep], the suspension point at which the rest of the process
    (other tasks, signal delivery) acts on the state. *)

From Stdlib Require Import ZArith Ascii.
From stdpp Require Import base option list gmap strings pretty.

Local Open Scope string_scope.
Local Open Scope list_scope.

(** ** Exceptions and the monad *)

(** The exception classes the two modules raise or catch.  [SystemExit] and
    the classes under [OtherBaseException] (KeyboardInterrupt,
    CancelledError, ...) derive from BaseException only; the others derive
    from Exception. *)
Inductive exn : Type :=
| RuntimeError (msg : string)
| UnboundLocalError (var : string)
| AttributeError (attr : string)
| SystemExit
| OtherException (name : string)
| OtherBaseException (name : string).

(** [isinstance(e, Exception)] *)
Definition is_Exception (e : exn) : bool :=
  match e with
  | SystemExit | OtherBaseException _ => false
  | _ => true
  end.

Inductive outcome (A : Type) : Type :=
| Normal (a : A)
| Raise (e : exn).
Arguments Normal {A} a.
Arguments Raise {A} e.

Definition M (S A : Type) : Type := S → outcome A * S.

Global Instance M_ret {S} : MRet (M S) := λ A a s, (Normal a, s).
Global Instance M_bind {S} : MBind (M S) := λ A B f m s,
  match m s with
  | (Normal a, s') => f a s'
  | (Raise e, s') => (Raise e, s')
  end.

Definition raise {S A} (e : exn) : M S A := λ s, (Raise e, s).
Definition gets {S A} (f : S → A) : M S A := λ s, (Normal (f s), s).
Definition modify {S} (f : S → S) : M S unit := λ s, (Normal tt, f s).

(** [async with cm: body].  [aexit] receives the exception raised by the
    body, if any, and answers whether to suppress it (the truth value of what
    [__aexit__] returns).  The statement yields [Some v] when the body
    completed with [v], and [None] when an exception was suppressed. *)
Definition async_with {S A} (aenter : M S unit) (aexit : option exn → M S bool)
    (body : M S A) : M S (option A) := λ s,
  match aenter s with
  | (Raise e, s1) => (Raise e, s1)
  | (Normal _, s1) =>
      match body s1 with
      | (Normal v, s2) =>
          match aexit None s2 with
          | (Normal _, s3) => (Normal (Some v), s3)
          | (Raise e, s3) => (Raise e, s3)
          end
      | (Raise e, s2) =>
          match aexit (Some e) s2 with
          | (Normal suppress, s3) =>
              if suppress then (Normal None, s3) else (Raise e, s3)
          | (Raise e', s3) => (Raise e', s3)
          end
      end
  end.

(** ** telebot/graceful_shutdown.py *)

Module GracefulShutdown.

(** Object identities. *)
Definition oid := nat.

(** [signal.Signals] *)
Inductive Signals : Type := SIGHUP | SIGINT | SIGQUIT | SIGTERM.

(** The records the module sends to its logger, one constructor per call
    site, with the values the message interpolates. *)
Inductive LogRecord : Type :=
| EnteringNegatedContext (reason : string) (initial_state : bool)
| ExitingNegatedContext (reason : string) (initial_state : bool)
| EnteringPreventionContext (reason : string)
| ExitingPreventionContext (reason : string)
| ShutdownSignalReceived (sig : Signals)
| RepeatedShutdownSignal (sig : Signals)
| ConditionNotSatisfied (description : string)
| AllConditionsSatisfied.

(** The instances of [GracefulShutdownCondition].  A plain condition holds a
    caller-supplied coroutine function, named here by a number; a
    [PreventShutdown] holds its flag and reason, its predicate is its own
    [is_ready_to_shutdown] and its description is derived from the reason. *)
Inductive Object : Type :=
| Condition (predicate : nat) (description : string)
| PreventShutdown (_is_preventing_shutdown : bool) (_reason : string).

Record GracefulShutdownHandler : Type := mkHandler {
  _is_shutting_down : bool;
  _is_running : bool;
}.

(** The state of the process that the module reads and writes.
    - [objects]: the live condition objects;
    - [instances]: the class attribute [GracefulShutdownCondition.instances],
      a WeakSet, as the identities it holds in iteration order; an identity
      no longer in [objects] is a dead reference;
    - [_singleton]: the class attribute [GracefulShutdownHandler._singleton];
      [__new__] never makes a second object, so the one object is stored in
      place;
    - [signal_handlers]: the signals whose handler is
      [_shutdown_signal_handler]. *)
Record Process : Type := mkProcess {
  objects : gmap oid Object;
  instances : list oid;
  next_oid : oid;
  _singleton : option GracefulShutdownHandler;
  signal_handlers : list Signals;
  log : list LogRecord;
}.

Definition set_objects (f : gmap oid Object → gmap oid Object) (s : Process) : Process :=
  mkProcess (f (objects s)) (instances s) (next_oid s) (_singleton s)
            (signal_handlers s) (log s).
Definition set_singleton (h : option GracefulShutdownHandler) (s : Process) : Process :=
  mkProcess (objects s) (instances s) (next_oid s) h (signal_handlers s) (log s).
Definition add_signal_handler (sig : Signals) (s : Process) : Process :=
  mkProcess (objects s) (instances s) (next_oid s) (_singleton s)
            (sig :: signal_handlers s) (log s).
Definition add_log (r : LogRecord) (s : Process) : Process :=
  mkProcess (objects s) (instances s) (next_oid s) (_singleton s)
            (signal_handlers s) (log s ++ [r]).

Definition logger (r : LogRecord) : M Process unit := modify (add_log r).

(** *** class PreventShutdown *)

(** [PreventShutdown(reason)]: [__new__] adds the new object to [instances],
    [__init__] clears the flag. *)
Definition PreventShutdown_new (reason : string) : M Process oid := λ s,
  let self := next_oid s in
  (Normal self,
   mkProcess (<[self := PreventShutdown false reason]> (objects s))
             (instances s ++ [self]) (S self) (_singleton s)
             (signal_handlers s) (log s)).

(** [self._is_preventing_shutdown] and [self._reason] *)
Definition get_flag (self : oid) : M Process bool := λ s,
  match objects s !! self with
  | Some (PreventShutdown b _) => (Normal b, s)
  | _ => (Raise (AttributeError "_is_preventing_shutdown"), s)
  end.
Definition get_reason (self : oid) : M Process string := λ s,
  match objects s !! self with
  | Some (PreventShutdown _ r) => (Normal r, s)
  | _ => (Raise (AttributeError "_reason"), s)
  end.

(** [self._is_preventing_shutdown = b] *)
Definition write_flag (b : bool) (o : Object) : Object :=
  match o with
  | PreventShutdown _ r => PreventShutdown b r
  | Condition p d => Condition p d
  end.
Definition set_flag (self : oid) (b : bool) : M Process unit :=
  modify (set_objects (alter (write_flag b) self)).

Definition is_ready_to_shutdown (self : oid) : M Process bool :=
  b ← get_flag self; mret (negb b).

Definition __aenter__ (self : oid) : M Process unit :=
  r ← get_reason self;
  logger (EnteringPreventionContext r);;
  set_flag self true.

(** [__aexit__] returns None, which is false. *)
Definition __aexit__ (self : oid) (exc : option exn) : M Process bool :=
  r ← get_reason self;
  logger (ExitingPreventionContext r);;
  set_flag self false;;
  mret false.

(** [async with self: body] *)
Definition with_self {A} (self : oid) (body : M Process A) : M Process (option A) :=
  async_with (__aenter__ self) (__aexit__ self) body.

(** [self(function)], the decorator: the decorated coroutine function. *)
Definition __call__ {Args A} (self : oid) (function : Args → M Process A)
    : Args → M Process (option A) :=
  λ args, with_self self (function args).

(** [allow_shutdown] is a generator turned into a context manager by
    [contextlib.asynccontextmanager].  The part before [yield] runs on entry
    and leaves [initial_state] in the generator's frame; the part after
    [yield] runs when the body completed. *)
Definition allow_shutdown_before_yield (self : oid) : M Process bool :=
  initial_state ← get_flag self;
  r ← get_reason self;
  logger (EnteringNegatedContext r initial_state);;
  set_flag self false;;
  mret initial_state.

Definition allow_shutdown_after_yield (self : oid) (initial_state : bool)
    : M Process unit :=
  r ← get_reason self;
  logger (ExitingNegatedContext r initial_state);;
  set_flag self initial_state.

(** [async with self.allow_shutdown(): body].  When the body raises, the
    context manager throws the exception into the generator at its [yield];
    the generator has no handler around the [yield], so the exception leaves
    it at once, the part after [yield] does not run, and the exception is
    raised again from the statement. *)
Definition allow_shutdown {A} (self : oid) (body : M Process A) : M Process A := λ s,
  match allow_shutdown_before_yield self s with
  | (Raise e, s1) => (Raise e, s1)
  | (Normal initial_state, s1) =>
      match body s1 with
      | (Normal v, s2) =>
          match allow_shutdown_after_yield self initial_state s2 with
          | (Normal _, s3) => (Normal v, s3)
          | (Raise e, s3) => (Raise e, s3)
          end
      | (Raise e, s2) => (Raise e, s2)
      end
  end.

(** [depth] statements [async with self.allow_shutdown():], each directly
    inside the one before, around [body]. *)
Fixpoint nested_allow_shutdown {A} (depth : nat) (self : oid) (body : M Process A)
    : M Process A :=
  match depth with
  | 0 => body
  | S d => allow_shutdown self (nested_allow_shutdown d self body)
  end.

(** *** class GracefulShutdownHandler *)

(** [self._is_shutting_down] and [self._is_running], [self] being the
    singleton. *)
Definition get_is_shutting_down : M Process bool := λ s,
  match _singleton s with
  | Some h => (Normal (_is_shutting_down h), s)
  | None => (Raise (AttributeError "_is_shutting_down"), s)
  end.
Definition get_is_running : M Process bool := λ s,
  match _singleton s with
  | Some h => (Normal (_is_running h), s)
  | None => (Raise (AttributeError "_is_running"), s)
  end.
Definition set_is_shutting_down (b : bool) : M Process unit :=
  modify (λ s, set_singleton ((λ h, mkHandler b (_is_running h)) <$> _singleton s) s).
Definition set_is_running (b : bool) : M Process unit :=
  modify (λ s, set_singleton ((λ h, mkHandler (_is_shutting_down h) b) <$> _singleton s) s).

(** [__new__]: makes the object on the first call only.  The new object has
    no attributes until [__init__], which follows at once, sets both. *)
Definition __new__ : M Process unit :=
  modify (λ s, match _singleton s with
               | None => set_singleton (Some (mkHandler false false)) s
               | Some _ => s
               end).

Definition __init__ : M Process unit :=
  set_is_shutting_down false;;
  set_is_running false.

(** [GracefulShutdownHandler()]: [__new__] returns an instance of the class,
    so [__init__] is called on what it returns, every time. *)
Definition GracefulShutdownHandler_call : M Process unit :=
  __new__;; __init__.

Definition _shutdown_signal_handler (sig : Signals) : M Process unit :=
  b ← get_is_shutting_down;
  if negb b then
    logger (ShutdownSignalReceived sig);;
    set_is_shutting_down true
  else
    logger (RepeatedShutdownSignal sig).

(** [is_shutting_down()] *)
Definition is_shutting_down : M Process bool :=
  GracefulShutdownHandler_call;;
  get_is_shutting_down.

Definition description (o : Object) : string :=
  match o with
  | Condition _ d => d
  | PreventShutdown _ r => "Preventing shutdown, " +:+ r
  end.

Section run.

(** The coroutine functions given to plain conditions, by number. *)
Variable user_predicate : nat → M Process bool.

(** [await asyncio.sleep(0.5)], where the coroutine is suspended; the k-th
    call stands for all that the rest of the process does meanwhile. *)
Variable asyncio_sleep : nat → M Process unit.

(** [await condition.is_ready()] *)
Definition is_ready (condition : oid) : M Process bool := λ s,
  match objects s !! condition with
  | Some (Condition p _) => user_predicate p s
  | Some (PreventShutdown _ _) => is_ready_to_shutdown condition s
  | None => (Raise (AttributeError "predicate"), s)
  end.

(** The iteration of the [for ... else] over
    [GracefulShutdownCondition.instances], with the references [ids] still
    to come: [true] when the loop ran to its end, so that the [else] branch
    is taken, [false] when it stopped at [break].  The loop iterates the set
    itself while its body runs.  Each time the next reference is asked for,
    also when none is left, the iterator of the set first compares the size
    of the set with [size], its size when the iteration began, and raises
    RuntimeError when they differ.  The reference of an object that is
    dropped during the iteration stays in the set until the iteration is
    over, so that only a registration changes the size.  Iterating a
    WeakSet skips the dead references. *)
Fixpoint for_conditions_from (size : nat) (ids : list oid) : M Process bool := λ s,
  if bool_decide (length (instances s) = size) then
    match ids with
    | [] => (Normal true, s)
    | condition :: rest =>
        match objects s !! condition with
        | None => for_conditions_from size rest s
        | Some o =>
            (ready ← is_ready condition;
             if negb ready then
               logger (ConditionNotSatisfied (description o));;
               mret false
             else for_conditions_from size rest : M Process bool) s
        end
    end
  else (Raise (RuntimeError "Set changed size during iteration"), s).

(** [for condition in GracefulShutdownCondition.instances: ... else: ...],
    entered when the set holds [ids]. *)
Definition for_conditions (ids : list oid) : M Process bool :=
  for_conditions_from (length ids) ids.

(** The body of [while True], at its k-th execution. *)
Definition loop_body (k : nat) : M Process unit :=
  asyncio_sleep k;;
  b ← get_is_shutting_down;
  if negb b then mret tt
  else
    ids ← gets instances;
    exhausted ← for_conditions ids;
    if exhausted : bool then
      logger AllConditionsSatisfied;;
      raise SystemExit
    else mret tt.

(** [while True: ...], for at most [fuel] executions of the body starting at
    the k-th.  The loop has no [break]: it ends by an exception only, and
    [None] says that it is still running after [fuel] executions. *)
Fixpoint while_true (fuel k : nat) (s : Process) : option (exn * Process) :=
  match fuel with
  | 0 => None
  | S fuel' =>
      match loop_body k s with
      | (Normal _, s') => while_true fuel' (S k) s'
      | (Raise e, s') => Some (e, s')
      end
  end.

(** The statements of [run] before the loop. *)
Definition run_prologue : M Process unit :=
  running ← get_is_running;
  if running : bool then
    raise (RuntimeError "Graceful shutdown handler may be run only once")
  else
    set_is_running true;;
    modify (add_signal_handler SIGINT);;
    modify (add_signal_handler SIGTERM).

Definition run (fuel : nat) (s : Process) : option (exn * Process) :=
  match run_prologue s with
  | (Normal _, s') => while_true fuel 0 s'
  | (Raise e, s') => Some (e, s')
  end.

(** *** The words of the specification about the polling loop *)

(** The coordinator is in the ShuttingDown state. *)
Definition ShuttingDown (s : Process) : Prop :=
  ∃ h, _singleton s = Some h ∧ _is_shutting_down h = true.

(** [c] is a registered condition and is alive in [s]. *)
Definition alive (s : Process) (c : oid) : Prop :=
  c ∈ instances s ∧ is_Some (objects s !! c).

(** Polled in [s], the condition [c] reports [b], and the poll leaves the
    process as it found it. *)
Definition reports (s : Process) (c : oid) (b : bool) : Prop :=
  is_ready c s = (Normal b, s).

(** The k-th execution of the body, started in [s], wakes up in [t] in the
    ShuttingDown state, where every alive condition reports, and one of them
    reports not ready. *)
Definition finds_not_ready (k : nat) (s t : Process) : Prop :=
  asyncio_sleep k s = (Normal tt, t)
  ∧ ShuttingDown t
  ∧ (∀ c, alive t c → ∃ b, reports t c b)
  ∧ ∃ c, alive t c ∧ reports t c false.

(** The k-th execution of the body, started in [s], wakes up in [t] in the
    ShuttingDown state, where every alive condition reports ready. *)
Definition finds_all_ready (k : nat) (s t : Process) : Prop :=
  asyncio_sleep k s = (Normal tt, t)
  ∧ ShuttingDown t
  ∧ ∀ c, alive t c → reports t c true.

(** The state in which [n] executions of the body, starting at the k-th,
    leave the process. *)
Fixpoint after_iterations (n k : nat) (s : Process) : Process :=
  match n with
  | 0 => s
  | S n' => after_iterations n' (S k) (snd (loop_body k s))
  end.

End run.

End GracefulShutdown.

(** ** telebot/webhook.py *)

Module Webhook.

(** [web.Response]; [web.Response()] has status 200. *)
Record Response : Type := mkResponse { status : Z }.
Definition Response_default : Response := mkResponse 200.

(** [web.Request], as far as the handler reads it: the parts of the path
    matched by the route pattern, and the content given to [request.json]. *)
Record Request (Body : Type) : Type := mkRequest {
  match_info : gmap string string;
  content : Body;
}.
Arguments mkRequest {Body} _ _.
Arguments match_info {Body} _.
Arguments content {Body} _.

(** What [logger.exception] is given for [update_id]: the identifier of the
    update or the text ["<not defined>"]. *)
Inductive update_id_or_text : Type :=
| Id (update_id : Z)
| Text (s : string).

(** A block of statements of a function that returns a [Response]: it
    completes by falling through ([Normal None]), by [return r]
    ([Normal (Some r)]) or by an exception. *)
Definition block (S : Type) : Type := M S (option Response).

(** [try: body finally: final].  The [finally] block runs whatever the
    completion of [body] was; if it returns or raises, the pending completion
    is discarded. *)
Definition try_finally {S} (body final : block S) : block S := λ s,
  match body s with
  | (pending, s1) =>
      match final s1 with
      | (Normal None, s2) => (pending, s2)
      | (Normal (Some r), s2) => (Normal (Some r), s2)
      | (Raise e, s2) => (Raise e, s2)
      end
  end.

(** [try: body except Exception as e: handler e] *)
Definition try_except_Exception {S} (body : block S) (handler : exn → block S)
    : block S := λ s,
  match body s with
  | (Raise e, s1) => if is_Exception e then handler e s1 else (Raise e, s1)
  | (Normal c, s1) => (Normal c, s1)
  end.

Section run_webhook_server.

(** The state of the rest of the process, and the types and functions of
    [telebot.types], [telebot.bot_runner], aiohttp and [logging] that the
    handler uses.  Each call may change the state and may raise. *)
Context {World Body Json Update Bot BotRunner : Type}.
Variable webhook_route : BotRunner → string.
Variable bot : BotRunner → Bot.
Variable update_id : Update → Z.
Variable request_json : Request Body → M World Json.
Variable de_json : Json → M World (option Update).
Variable process_new_updates : Bot → list Update → M World unit.
Variable logger_exception : update_id_or_text → option Update → M World unit.

(** [{bw.webhook_route(): bw for bw in bot_runners}]: a later runner
    replaces an earlier one with the same route. *)
Definition bot_runner_by_route (bot_runners : list BotRunner) : gmap string BotRunner :=
  foldl (λ d bw, <[webhook_route bw := bw]> d) ∅ bot_runners.

(** The frame of one call of [handle_update]: the local variable [update],
    unbound until its assignment, and the state of the process. *)
Record Frame : Type := mkFrame {
  update : option (option Update);
  world : World;
}.

Definition lift {A} (m : M World A) : M Frame A := λ f,
  match m (world f) with
  | (r, w) => (r, mkFrame (update f) w)
  end.

Definition assign_update (u : option Update) : M Frame unit :=
  modify (λ f, mkFrame (Some u) (world f)).

Definition read_update : M Frame (option Update) := λ f,
  match update f with
  | Some u => (Normal u, f)
  | None => (Raise (UnboundLocalError "update"), f)
  end.

Definition try_body (bot_runner : BotRunner) (request : Request Body) : block Frame :=
  j ← lift (request_json request);
  u ← lift (de_json j);
  assign_update u;;
  u ← read_update;
  match u with
  | Some upd => lift (process_new_updates (bot bot_runner) [upd]);; mret None
  | None => mret None
  end.

Definition except_body (e : exn) : block Frame :=
  u ← read_update;
  id ← match u with
       | Some upd => mret (Id (update_id upd))
       | None => mret (Text "<not defined>")
       end;
  u ← read_update;
  lift (logger_exception id u);;
  mret None.

Definition finally_body : block Frame := mret (Some Response_default).

Definition handle_update (bot_runners : list BotRunner) (request : Request Body)
    : M World (option Response) := λ w,
  match match_info request !! "route" with
  | None => (Normal (Some (mkResponse 404)), w)
  | Some route =>
      match bot_runner_by_route bot_runners !! route with
      | None => (Normal (Some (mkResponse 403)), w)
      | Some bot_runner =>
          match try_finally
                  (try_except_Exception (try_body bot_runner request) except_body)
                  finally_body (mkFrame None w) with
          | (r, f) => (r, world f)
          end
      end
  end.

End run_webhook_server.

End Webhook.

(** ** A process for the examples *)

Module Scenario.
Import GracefulShutdown Webhook.

(** A fresh process makes two guards, starts the coordinator, enters the
    second guard and then receives SIGTERM. *)
Definition fresh : Process := mkProcess ∅ [] 0 None [] [].

Definition setup : M Process unit :=
  PreventShutdown_new "performing background task 1";;
  job ← PreventShutdown_new "performing background task 2";
  GracefulShutdownHandler_call;;
  run_prologue;;
  __aenter__ job.

Definition guarded : Process := snd (setup fresh).
Definition after_SIGTERM : Process := snd (_shutdown_signal_handler SIGTERM guarded).

(** No plain condition is registered in this process. *)
Definition no_user_predicate (p : nat) : M Process bool := mret true.

(** While the coordinator sleeps for the second time, the guarded job ends
    and leaves its guard; nothing happens during the other sleeps. *)
Definition job_ends_during_second_sleep (k : nat) : M Process unit :=
  if (k =? 1)%nat then __aexit__ 1 None;; mret tt else mret tt.

(** A body that raises. *)
Definition failing_body : M Process unit := raise (OtherException "ValueError").

(** The webhook server of this process hosts one bot.  The world of the
    handler is the process and the updates given to the bot so far.  A
    request carries a JSON number or text that is not JSON; a negative number
    is not an update, zero decodes to None, and the bot's processing is
    cancelled on update 13. *)
Record World : Type := mkWorld {
  process : Process;
  processed : list Z;
}.

Definition bot_runners : list (string * unit) := [("testing", tt)].

Definition request_json (request : Request (option Z)) : M World Z :=
  match content request with
  | Some j => mret j
  | None => raise (OtherException "JSONDecodeError")
  end.

Definition de_json (j : Z) : M World (option Z) :=
  if (j <? 0)%Z then raise (OtherException "KeyError")
  else if (j =? 0)%Z then mret None
  else mret (Some j).

Definition process_new_updates (_ : unit) (updates : list Z) : M World unit :=
  if bool_decide (13%Z ∈ updates) then raise (OtherBaseException "CancelledError")
  else modify (λ w, mkWorld (process w) (processed w ++ updates)).

Definition logger_exception (_ : update_id_or_text) (_ : option Z) : M World unit :=
  mret tt.

(** [handle_update] of the server that hosts [bot_runners]. *)
Definition handler : Request (option Z) → M World (option Response) :=
  Webhook.handle_update fst snd (λ u : Z, u) request_json de_json
    process_new_updates logger_exception bot_runners.

(** POST /webhook/<route>/ *)
Definition post (route : string) (body : option Z) : Request (option Z) :=
  mkRequest {["route" := route]} body.

End Scenario.

(** ** States of the process *)

Module ProcessState.
Import GracefulShutdown.

(** The coordinator is in the Running state: no signal was received since
    the handler was last initialised. *)
Definition Running (s : Process) : Prop :=
  ∃ h, _singleton s = Some h ∧ _is_shutting_down h = false.

(** Object identities are given out in increasing order: every identity in
    use is below the next one to be given out. *)
Definition ids_below_next (s : Process) : Prop :=
  (∀ i, is_Some (objects s !! i) → i < next_oid s)
  ∧ (∀ i, i ∈ instances s → i < next_oid s).

End ProcessState.

(** ** More of the example process *)

Module ScenarioFurther.
Import GracefulShutdown Scenario.

(** [GracefulShutdownCondition(predicate, description)], for the coroutine
    function numbered [predicate]: [__new__] registers the new object. *)
Definition GracefulShutdownCondition_new (predicate : nat) (description : string)
    : M Process oid := λ s,
  let self := next_oid s in
  (Normal self,
   mkProcess (<[self := Condition predicate description]> (objects s))
             (instances s ++ [self]) (S self) (_singleton s)
             (signal_handlers s) (log s)).

(** The second job has left its guard, and a plain condition was registered
    whose predicate fails. *)
Definition with_failing_condition : Process :=
  snd ((__aexit__ 1 None;;
        GracefulShutdownCondition_new 0 "database is flushed") after_SIGTERM).

Definition failing_predicate (p : nat) : M Process bool :=
  raise (OtherException "ConnectionError").

(** A predicate that makes a guard of its own each time it is polled. *)
Definition registering_predicate (p : nat) : M Process bool :=
  PreventShutdown_new "flushing the database";; mret true.

(** Nothing happens while the coordinator sleeps. *)
Definition quiet_sleep (k : nat) : M Process unit := mret tt.

End ScenarioFurther.

(** ** Python dictionaries with string keys *)

Module PyDict.

(** A dict, as the list of its items in insertion order. *)
Definition dict (V : Type) : Type := list (string * V).

(** [d[k] = v]: an existing key keeps its place and gets the new value, a new
    key goes to the end. *)
Fixpoint setitem {V} (k : string) (v : V) (d : dict V) : dict V :=
  match d with
  | [] => [(k, v)]
  | (k', v') :: d' =>
      if decide (k = k') then (k, v) :: d' else (k', v') :: setitem k v d'
  end.

(** [d.get(k)] *)
Fixpoint get {V} (k : string) (d : dict V) : option V :=
  match d with
  | [] => None
  | (k', v') :: d' => if decide (k = k') then Some v' else get k d'
  end.

End PyDict.

(** ** telebot/webhook.py: starting the server *)

Module WebhookStartup.

(** The records [run_webhook_server] and its startup functions send to the
    logger. *)
Inductive LogRecord : Type :=
| RunningBots (bots : list (string * string))
| WebhookSet (name : string)
| BackgroundTaskCreated (idx : nat) (name : string).

Section run_webhook_server.

(** The state of the process, the runners with their attributes, and the
    calls into the bot, the event loop and the logger. *)
Context {World Bot BotRunner Coro : Type}.
Variable webhook_route : BotRunner → string.
Variable bot : BotRunner → Bot.
Variable name : BotRunner → string.
Variable background_jobs : BotRunner → list Coro.
Variable delete_webhook : Bot → M World unit.
Variable set_webhook : Bot → string → M World unit.
Variable create_task : Coro → M World unit.
Variable logger_info : LogRecord → M World unit.

(** [bot_runner_by_route.items()]: the items of the dict comprehension, in
    the order in which their keys were first inserted. *)
Definition bot_runner_by_route_items (bot_runners : list BotRunner)
    : PyDict.dict BotRunner :=
  foldl (λ d bw, PyDict.setitem (webhook_route bw) bw d) [] bot_runners.

(** The [for] loop of [setup_webhooks] over the items. *)
Fixpoint setup_webhooks_for (base_url : string) (items : PyDict.dict BotRunner)
    : M World unit :=
  match items with
  | [] => mret tt
  | (route, br) :: rest =>
      delete_webhook (bot br);;
      set_webhook (bot br) (base_url +:+ "/" +:+ route +:+ "/");;
      logger_info (WebhookSet (name br));;
      setup_webhooks_for base_url rest
  end.

Definition setup_webhooks (bot_runners : list BotRunner) (base_url : string)
    : M World unit :=
  setup_webhooks_for base_url (bot_runner_by_route_items bot_runners).

(** The inner [for] loop of [run_background_tasks], over
    [enumerate(bw.background_jobs)] from index [idx]. *)
Fixpoint create_tasks_for (bw : BotRunner) (idx : nat) (jobs : list Coro)
    : M World unit :=
  match jobs with
  | [] => mret tt
  | coro :: rest =>
      create_task coro;;
      logger_info (BackgroundTaskCreated idx (name bw));;
      create_tasks_for bw (S idx) rest
  end.

Fixpoint run_background_tasks (bot_runners : list BotRunner) : M World unit :=
  match bot_runners with
  | [] => mret tt
  | bw :: rest =>
      create_tasks_for bw 0 (background_jobs bw);;
      run_background_tasks rest
  end.

(** What [run_webhook_server] does until the server listens: it logs the
    hosted bots, and aiohttp then runs the startup functions in the order in
    which they were appended. *)
Definition startup (bot_runners : list BotRunner) (base_url : string)
    : M World unit :=
  logger_info
    (RunningBots ((λ item, (item.1, name item.2))
                    <$> bot_runner_by_route_items bot_runners));;
  setup_webhooks bot_runners base_url;;
  run_background_tasks bot_runners.

End run_webhook_server.

(** The calls made during startup, when they are only recorded. *)
Inductive Call (Bot Coro : Type) : Type :=
| DeleteWebhook (b : Bot)
| SetWebhook (b : Bot) (url : string)
| CreateTask (c : Coro)
| Info (r : LogRecord).
Arguments DeleteWebhook {Bot Coro} b.
Arguments SetWebhook {Bot Coro} b url.
Arguments CreateTask {Bot Coro} c.
Arguments Info {Bot Coro} r.

Definition record {Bot Coro} (c : Call Bot Coro) : M (list (Call Bot Coro)) unit :=
  modify (λ calls, calls ++ [c]).

(** The calls that [startup] makes, in order, when none of them fails. *)
Definition startup_calls {Bot BotRunner Coro : Type}
    (webhook_route : BotRunner → string) (bot : BotRunner → Bot)
    (name : BotRunner → string) (background_jobs : BotRunner → list Coro)
    (bot_runners : list BotRunner) (base_url : string) : list (Call Bot Coro) :=
  snd (startup webhook_route bot name background_jobs
         (λ b, record (DeleteWebhook b)) (λ b url, record (SetWebhook b url))
         (λ c, record (CreateTask c)) (λ r, record (Info r))
         bot_runners base_url []).

(** The webhooks set and the tasks created among recorded calls, in order. *)
Definition webhooks_set {Bot Coro} (calls : list (Call Bot Coro)) : list (Bot * string) :=
  omap (λ c, match c with SetWebhook b url => Some (b, url) | _ => None end) calls.
Definition tasks_created {Bot Coro} (calls : list (Call Bot Coro)) : list Coro :=
  omap (λ c, match c with CreateTask coro => Some coro | _ => None end) calls.

End WebhookStartup.

(** ** telebot/api.py *)

Module Api.

Definition MAX_RETRIES : nat := 5.
Definition REQUEST_LIMIT : nat := 50.

(** *** Form data *)

(** The values of a [Params] dict that the module passes, and any other
    object by what [str] gives for it. *)
Inductive ParamValue : Type :=
| PNone
| PBool (b : bool)
| PInt (z : Z)
| PStr (s : string)
| PObject (str : string).

(** [str(value)] *)
Definition str (value : ParamValue) : string :=
  match value with
  | PNone => "None"
  | PBool true => "True"
  | PBool false => "False"
  | PInt z => pretty z
  | PStr s => s
  | PObject s => s
  end.

(** The attribute [name] of an object, when it has one: a str, or another
    object, of which only its truth value matters. *)
Inductive NameAttr : Type :=
| NameStr (s : string)
| NameObject (truth : bool).

(** [FileObject]: only a BytesIO can have a [name] attribute. *)
Inductive FileObject : Type :=
| BytesIO (name : option NameAttr) (content : string)
| Bytes (content : string)
| Bytearray (content : string)
| Memoryview (content : string).

(** A value of a [Files] dict: a tuple of a file name and a file object, a
    tuple of [len] elements for a [len] other than 2, or a file object. *)
Inductive FileValue : Type :=
| FileTuple (filename : string) (file_object : FileObject)
| BadTuple (len : nat)
| Plain (file_object : FileObject).

(** The fields of an [aiohttp.FormData], in the order of [add_field]. *)
Inductive Field : Type :=
| TextField (name value : string)
| FileField (name : string) (file_object : FileObject) (filename : string).

(** [p.rfind(c)], when [c] occurs. *)
Fixpoint rfind (c : Ascii.ascii) (p : string) : option nat :=
  match p with
  | EmptyString => None
  | String a rest =>
      match rfind c rest with
      | Some i => Some (S i)
      | None => if Ascii.eqb a c then Some 0 else None
      end
  end.

(** [p[i:]] *)
Fixpoint string_drop (i : nat) (p : string) : string :=
  match i, p with
  | 0, _ => p
  | S i', String _ rest => string_drop i' rest
  | S _, EmptyString => EmptyString
  end.

(** [os.path.basename(p)] of posixpath: [p[p.rfind("/") + 1:]], where
    [rfind] is -1 when there is no slash. *)
Definition basename (p : string) : string :=
  string_drop (match rfind "/"%char p with Some i => S i | None => 0 end) p.

(** [name[0]] and [name[-1]] of a string that is not empty. *)
Definition first_char (s : string) : option Ascii.ascii := String.get 0 s.
Definition last_char (s : string) : option Ascii.ascii :=
  String.get (String.length s - 1) s.

Definition getattr_name (obj : FileObject) : option NameAttr :=
  match obj with
  | BytesIO name _ => name
  | _ => None
  end.

Definition extract_filename (obj : FileObject) : option string :=
  match getattr_name obj with
  | Some (NameStr name) =>
      if bool_decide (name ≠ "")
         && bool_decide (first_char name ≠ Some "<"%char)
         && bool_decide (last_char name ≠ Some ">"%char)
      then Some (basename name)
      else None
  | _ => None
  end.

(** [x or y] for an optional str [x]. *)
Definition str_or (x : option string) (y : string) : string :=
  match x with
  | Some s => if bool_decide (s = "") then y else s
  | None => y
  end.

(** The two loops of [to_form_data]; the first exception is the result. *)
Definition params_fields (params : PyDict.dict ParamValue) : list Field :=
  (λ item, TextField item.1 (str item.2)) <$> params.

Fixpoint files_fields (files : PyDict.dict FileValue) : exn + list Field :=
  match files with
  | [] => inr []
  | (key, f) :: rest =>
      match
        match f with
        | FileTuple filename file_object => inr (FileField key file_object filename)
        | BadTuple _ =>
            inl (OtherException "ValueError")
        | Plain file_object =>
            inr (FileField key file_object (str_or (extract_filename file_object) key))
        end
      with
      | inl e => inl e
      | inr field =>
          match files_fields rest with
          | inl e => inl e
          | inr fields => inr (field :: fields)
          end
      end
  end.

(** The first argument of [add_field]. *)
Definition field_name (field : Field) : string :=
  match field with
  | TextField name _ => name
  | FileField name _ _ => name
  end.

(** [to_form_data(params, files)]: None and an empty dict are both false. *)
Definition to_form_data (params : option (PyDict.dict ParamValue))
    (files : option (PyDict.dict FileValue)) : exn + list Field :=
  match files_fields (default [] files) with
  | inl e => inl e
  | inr fields => inr (params_fields (default [] params) ++ fields)
  end.

(** *** Sessions, responses and the process *)

(** A float, as far as the module looks at it: zero, which is false, or
    another float, which is true. *)
Inductive float : Type :=
| FloatZero
| FloatNonzero (repr : string).

(** The objects that [json] decodes to. *)
#[warnings="-register-all"]
Inductive json : Type :=
| JNull
| JBool (b : bool)
| JInt (z : Z)
| JFloat (f : float)
| JStr (s : string)
| JList (l : list json)
| JDict (d : gmap string json).

(** The truth value of an object. *)
Definition truth (j : json) : bool :=
  match j with
  | JNull => false
  | JBool b => b
  | JInt z => bool_decide (z ≠ 0%Z)
  | JFloat FloatZero => false
  | JFloat (FloatNonzero _) => true
  | JStr s => bool_decide (s ≠ "")
  | JList l => bool_decide (l ≠ [])
  | JDict d => bool_decide (d ≠ ∅)
  end.

(** [d.get(k)] of a decoded dict: None also when the key is absent. *)
Definition dict_get (k : string) (d : gmap string json) : json :=
  default JNull (d !! k).

(** [aiohttp.ClientSession]: whether it is closed, whether its event loop
    is running, and the limit of its connector. *)
Record ClientSession : Type := mkSession {
  closed : bool;
  loop_running : bool;
  limit : nat;
}.

(** [aiohttp.ClientResponse]: the status, and what [text()] and [json()]
    do when they are awaited. *)
Record Response : Type := mkResponse {
  status : Z;
  text_result : option exn;
  json_result : outcome json;
}.

(** What becomes of a request: the connection fails with an exception, or a
    response arrives. *)
Inductive Reply : Type :=
| ConnectionFails (e : exn)
| Responds (response : Response).

(** A request given to a session. *)
Record Sent : Type := mkSent {
  sent_session : nat;
  sent_method : string;
  sent_url : string;
  sent_data : list Field;
  sent_timeout : option float;
}.

Inductive LogRecord : Type :=
| MakingRequest (request_description : string)
| Retrying (attempt max_retries : nat) (request_description : string) (e : exn)
| DidntSucceed (request_description : string)
| InvalidErrorResponseParameters (raw : json).

(** The state of the process that the module reads and writes.
    - [sessions]: the ClientSession objects made so far;
    - [session]: the attribute [session] of the object [session_manager];
    - [sent]: the requests given to sessions so far;
    - [unreleased]: the number of responses received and not yet released. *)
Record World : Type := mkWorld {
  sessions : gmap nat ClientSession;
  session : option nat;
  next_session : nat;
  sent : list Sent;
  unreleased : nat;
  log : list LogRecord;
}.

Definition logger (r : LogRecord) : M World unit :=
  modify (λ w, mkWorld (sessions w) (session w) (next_session w) (sent w)
                 (unreleased w) (log w ++ [r])).

(** *** class SessionManager *)

Definition set_session (s : nat) : M World unit :=
  modify (λ w, mkWorld (sessions w) (Some s) (next_session w) (sent w)
                 (unreleased w) (log w)).

(** [await session.close()] of aiohttp. *)
Definition ClientSession_close (s : nat) : M World unit :=
  modify (λ w, mkWorld (alter (λ cs, mkSession true (loop_running cs) (limit cs))
                          s (sessions w))
                 (session w) (next_session w) (sent w) (unreleased w) (log w)).

Definition close_session : M World unit := λ w,
  match session w with
  | Some s => ClientSession_close s w
  | None => (Normal tt, w)
  end.

(** [init_session]: the new session is open, and its loop is the one that
    runs the coroutine, which is running. *)
Definition init_session : M World unit :=
  modify (λ w, mkWorld (<[next_session w := mkSession false true REQUEST_LIMIT]>
                          (sessions w))
                 (Some (next_session w)) (S (next_session w)) (sent w)
                 (unreleased w) (log w)).

(** [get_session] returns the attribute [session] as it is. *)
Definition get_session : M World (option nat) := λ w,
  match session w with
  | None => (init_session;; gets session) w
  | Some s =>
      match sessions w !! s with
      | Some cs =>
          if closed cs || negb (loop_running cs)
          then (init_session;; gets session) w
          else (Normal (Some s), w)
      | None => (Raise (AttributeError "closed"), w)
      end
  end.

(** *** Responses *)

Record ErrorResponseParameters : Type := mkErrorResponseParameters {
  migrate_to_chat_id : json;
  retry_after : json;
}.

(** [x is None or isinstance(x, int)]; a bool is an int. *)
Definition is_None_or_int (x : json) : bool :=
  match x with
  | JNull | JInt _ | JBool _ => true
  | _ => false
  end.

(** [ErrorResponseParameters.parse(raw)] *)
Definition parse (raw : json) : M World (option ErrorResponseParameters) :=
  match raw with
  | JDict d =>
      let migrate_to_chat_id := dict_get "migrate_to_chat_id" d in
      if negb (is_None_or_int migrate_to_chat_id) then
        logger (InvalidErrorResponseParameters raw);; mret None
      else
        let retry_after := dict_get "retry_after" d in
        if negb (is_None_or_int retry_after) then
          logger (InvalidErrorResponseParameters raw);; mret None
        else mret (Some (mkErrorResponseParameters migrate_to_chat_id retry_after))
  | _ => mret None
  end.

(** The classes of the module's exceptions, by name. *)
Definition ApiHTTPException : exn := OtherException "ApiHTTPException".
Definition ApiInvalidJSONException : exn := OtherException "ApiInvalidJSONException".

(** [isinstance(e, ApiException)] *)
Definition is_ApiException (e : exn) : bool :=
  match e with
  | OtherException name =>
      bool_decide (name ∈ ["ApiException"; "ApiHTTPException";
                           "ApiInvalidJSONException"])
  | _ => false
  end.

(** [ApiHTTPException(response_json, response)]: making the exception parses
    the error parameters of a dict, which can log. *)
Definition ApiHTTPException_new (response_json : json) : M World exn :=
  match response_json with
  | JDict d => parse (dict_get "parameters" d);; mret ApiHTTPException
  | _ => mret ApiHTTPException
  end.

(** [not isinstance(result_json, dict) or result_json.get("ok") is not True] *)
Definition not_ok (result_json : json) : bool :=
  match result_json with
  | JDict d =>
      match dict_get "ok" d with
      | JBool true => false
      | _ => true
      end
  | _ => true
  end.

Definition _check_response (response : Response) : M World json := λ w,
  match text_result response with
  | Some e => (Raise e, w)
  | None =>
      match json_result response with
      | Raise e =>
          if is_Exception e then (Raise ApiInvalidJSONException, w)
          else (Raise e, w)
      | Normal result_json =>
          if not_ok result_json then
            (e ← ApiHTTPException_new result_json; raise e) w
          else (Normal result_json, w)
      end
  end.

(** *** Requests *)

(** [async with cm as x: body], as [async_with] with the value of
    [__aenter__] given to the body and to [__aexit__]. *)
Definition async_with_as {S R A} (aenter : M S R)
    (aexit : R → option exn → M S bool) (body : R → M S A)
    : M S (option A) := λ s,
  match aenter s with
  | (Raise e, s1) => (Raise e, s1)
  | (Normal x, s1) =>
      match body x s1 with
      | (Normal v, s2) =>
          match aexit x None s2 with
          | (Normal _, s3) => (Normal (Some v), s3)
          | (Raise e, s3) => (Raise e, s3)
          end
      | (Raise e, s2) =>
          match aexit x (Some e) s2 with
          | (Normal suppress, s3) =>
              if suppress then (Normal None, s3) else (Raise e, s3)
          | (Raise e', s3) => (Raise e', s3)
          end
      end
  end.

Section request.

(** What becomes of the n-th request of the process. *)
Variable transport : nat → Reply.

(** Whether the logger is enabled for DEBUG, and the description of a
    request that is then made, from the token, the method, the route, the
    params, the files and the timeout: the text of the f-string with the
    token replaced, or the exception that formatting the files raises (a
    tuple without a second element has no [v[1]]). *)
Variable debug_enabled : bool.
Variable describe :
  string → string → string → option (PyDict.dict ParamValue) →
  option (PyDict.dict FileValue) → option float → exn + string.

(** [session.request(...)] entered as a context manager: a closed session
    refuses the request; otherwise the request is sent and its reply is what
    the transport says. *)
Definition ClientSession_request (s : nat) (method url : string)
    (data : list Field) (timeout : option float) : M World Response := λ w,
  match sessions w !! s with
  | Some cs =>
      if closed cs then (Raise (RuntimeError "Session is closed"), w)
      else
        let request := mkSent s method url data timeout in
        match transport (length (sent w)) with
        | ConnectionFails e =>
            (Raise e, mkWorld (sessions w) (session w) (next_session w)
                        (sent w ++ [request]) (unreleased w) (log w))
        | Responds response =>
            (Normal response,
             mkWorld (sessions w) (session w) (next_session w)
               (sent w ++ [request]) (S (unreleased w)) (log w))
        end
  | None => (Raise (AttributeError "request"), w)
  end.

(** Leaving the context manager releases the response; it answers None. *)
Definition release (response : Response) (exc : option exn) : M World bool := λ w,
  (Normal false,
   mkWorld (sessions w) (session w) (next_session w) (sent w)
     (Nat.pred (unreleased w)) (log w)).

(** [request_timeout or DEFAULT_REQUEST_TIMEOUT], the latter being None. *)
Definition total_timeout (request_timeout : option float) : option float :=
  match request_timeout with
  | Some (FloatNonzero r) => Some (FloatNonzero r)
  | _ => None
  end.

(** [json_result["result"]] *)
Definition getitem_result (json_result : json) : M World json :=
  match json_result with
  | JDict d =>
      match d !! "result" with
      | Some v => mret v
      | None => raise (OtherException "KeyError")
      end
  | _ => raise (OtherException "TypeError")
  end.

(** The [try] block of one attempt: [Some v] when it returns [v], [None]
    when it ends without returning. *)
Definition attempt (session : option nat) (token route method : string)
    (params : option (PyDict.dict ParamValue))
    (files : option (PyDict.dict FileValue)) (request_timeout : option float)
    : M World (option json) :=
  match session with
  | None => raise (AttributeError "request")
  | Some s =>
      match to_form_data params files with
      | inl e => raise e
      | inr data =>
          r ← async_with_as
                (ClientSession_request s method
                   ("https://api.telegram.org/bot" +:+ token +:+ "/" +:+ route)
                   data (total_timeout request_timeout))
                release
                (λ resp,
                   json_result ← _check_response resp;
                   if truth json_result then
                     v ← getitem_result json_result; mret (Some v)
                   else mret None);
          mret (mjoin r)
      end
  end.

(** [for attempt in range(MAX_RETRIES): ... else: ...], with [left]
    attempts left, the next having the number [n]. *)
Fixpoint retry (left n : nat) (last_exception : option exn)
    (request_description : string) (try : M World (option json))
    : M World json :=
  match left with
  | 0 =>
      match last_exception with
      | Some e => logger (DidntSucceed request_description);; raise e
      | None => mret JNull
      end
  | S left' => λ w,
      match try w with
      | (Normal (Some v), w') => (Normal v, w')
      | (Normal None, w') =>
          retry left' (S n) last_exception request_description try w'
      | (Raise e, w') =>
          if is_ApiException e then (Raise e, w')
          else if is_Exception e then
            (logger (Retrying (n + 1) MAX_RETRIES request_description e);;
             retry left' (S n) (Some e) request_description try) w'
          else (Raise e, w')
      end
  end.

Definition _request (token route method : string)
    (params : option (PyDict.dict ParamValue))
    (files : option (PyDict.dict FileValue)) (request_timeout : option float)
    : M World json :=
  session ← get_session;
  match
    if debug_enabled
    then describe token method route params files request_timeout
    else inr "<request description not available>"
  with
  | inl e => raise e
  | inr request_description =>
      (if debug_enabled then logger (MakingRequest request_description)
       else mret tt);;
      retry MAX_RETRIES 0 None request_description
        (attempt session token route method params files request_timeout)
  end.

End request.

End Api.

(** ** States of the api module *)

Module ApiState.
Import Api.
(** The sessions in use are below the next one to be made, and the session
    of the manager, if it has one, is one of the sessions made. *)
Definition sessions_below_next (w : World) : Prop :=
  (∀ i, is_Some (sessions w !! i) → i < next_session w)
  ∧ (∀ s, session w = Some s → is_Some (sessions w !! s)).

(** The session [s] exists, is open and its loop is running. *)
Definition usable (w : World) (s : nat) : Prop :=
  ∃ cs, sessions w !! s = Some cs ∧ closed cs = false ∧ loop_running cs = true.
End ApiState.

(** ** Replies to the requests of telebot/api.py *)

Module ApiReplies.
Import Api.

(** A reply after which the attempt fails with [e] and is tried again: the
    connection or the loading of the body fails with an exception of class
    Exception that is not an ApiException, or the response is a dict with
    ["ok"] True and no ["result"]. *)
Inductive retried : Reply → exn → Prop :=
| retried_connection e :
    is_Exception e = true → is_ApiException e = false →
    retried (ConnectionFails e) e
| retried_text status e json_result :
    is_Exception e = true → is_ApiException e = false →
    retried (Responds (mkResponse status (Some e) json_result)) e
| retried_no_result status d :
    d !! "ok" = Some (JBool true) → d !! "result" = None →
    retried (Responds (mkResponse status None (Normal (JDict d))))
      (OtherException "KeyError").

(** A reply after which the attempt fails with [e] for good. *)
Inductive final_failure : Reply → exn → Prop :=
| final_connection e :
    is_Exception e = false ∨ is_ApiException e = true →
    final_failure (ConnectionFails e) e
| final_text status e json_result :
    is_Exception e = false ∨ is_ApiException e = true →
    final_failure (Responds (mkResponse status (Some e) json_result)) e
| final_invalid_json status e :
    is_Exception e = true →
    final_failure (Responds (mkResponse status None (Raise e)))
      ApiInvalidJSONException
| final_json_interrupted status e :
    is_Exception e = false →
    final_failure (Responds (mkResponse status None (Raise e))) e
| final_not_ok status result_json :
    not_ok result_json = true →
    final_failure (Responds (mkResponse status None (Normal result_json)))
      ApiHTTPException.

(** The records logged for attempts that failed with [es] and were tried
    again, the first of them being the attempt numbered [n]. *)
Definition retrying_records (n : nat) (request_description : string)
    (es : list exn) : list LogRecord :=
  imap (λ k e, Retrying (n + k + 1) MAX_RETRIES request_description e) es.

(** What [_request] logs before the first attempt. *)
Definition debug_records (debug_enabled : bool) (request_description : string)
    : list LogRecord :=
  if debug_enabled then [MakingRequest request_description] else [].

(** The session [s] exists and is open. *)
Definition open_session (s : nat) (w : World) : Prop :=
  ∃ cs, sessions w !! s = Some cs ∧ closed cs = false.

(** The request that [_request] gives to the session [s]. *)
Definition request_of (s : nat) (token route method : string) (data : list Field)
    (request_timeout : option float) : Sent :=
  mkSent s method ("https://api.telegram.org/bot" +:+ token +:+ "/" +:+ route)
    data (total_timeout request_timeout).

(** The process after [sends] more sendings of [request] and more records in
    the log. *)
Definition after_sending (request : Sent) (sends : nat) (records : list LogRecord)
    (w : World) : World :=
  mkWorld (sessions w) (session w) (next_session w)
    (sent w ++ replicate sends request) (unreleased w) (log w ++ records).

End ApiReplies.

(** ** A process for the examples of telebot/api.py *)

Module ApiScenario.
Import Api.

(** A process that has made no session and sent nothing. *)
Definition started : World := mkWorld ∅ None 0 [] 0 [].

(** A process whose manager holds the open session 0. *)
Definition with_session : World :=
  mkWorld {[ 0 := mkSession false true REQUEST_LIMIT ]} (Some 0) 1 [] 0 [].

(** The JSON of a successful answer and of an answer that is an error. *)
Definition ok_reply : gmap string json :=
  {[ "ok" := JBool true; "result" := JInt 7 ]}.
Definition error_reply : gmap string json :=
  {[ "ok" := JBool false; "description" := JStr "Unauthorized" ]}.

Definition connection_error : exn := OtherException "ClientConnectionError".

(** Two connections fail, the third request is answered. *)
Definition flaky (n : nat) : Reply :=
  if (n <? 2)%nat then ConnectionFails connection_error
  else Responds (mkResponse 200 None (Normal (JDict ok_reply))).

(** One connection fails, then the server answers with an error. *)
Definition unauthorized (n : nat) : Reply :=
  if (n <? 1)%nat then ConnectionFails connection_error
  else Responds (mkResponse 401 None (Normal (JDict error_reply))).

(** No connection succeeds. *)
Definition unreachable (n : nat) : Reply := ConnectionFails connection_error.

(** A description that cannot be made: formatting the files raises. *)
Definition describe_raises (token method route : string)
    (params : option (PyDict.dict ParamValue))
    (files : option (PyDict.dict FileValue)) (request_timeout : option float)
    : exn + string :=
  inl (OtherException "IndexError").

(** A description that names the method and the route. *)
Definition describe (token method route : string)
    (params : option (PyDict.dict ParamValue))
    (files : option (PyDict.dict FileValue)) (request_timeout : option float)
    : exn + string :=
  inr (method +:+ " " +:+ route).

Definition params : option (PyDict.dict ParamValue) :=
  Some [("chat_id", PInt 42); ("text", PStr "hello")].

(** A file given by itself, with the path it was read from, and a file
    given with a name. *)
Definition photo : FileObject := BytesIO (Some (NameStr "/tmp/cat.png")) "...".
Definition files : option (PyDict.dict FileValue) :=
  Some [("photo", Plain photo); ("thumb", FileTuple "small.png" (Bytes "..."))].

(** A value of the files that is a tuple of three elements. *)
Definition bad_files : option (PyDict.dict FileValue) :=
  Some [("photo", Plain photo); ("thumb", BadTuple 3)].

End ApiScenario.

(** * Properties *)

(** ** Properties of telebot/graceful_shutdown.py *)

Module GracefulShutdownProperties.
Import GracefulShutdown.

Ltac unfold_M :=
  cbv [mbind M_bind mret M_ret modify gets raise logger] in *.

(** *** Reading and writing the fields of a guard *)

Lemma lookup_add_log s r self : objects (add_log r s) !! self = objects s !! self.
Proof. reflexivity. Qed.

Lemma lookup_write_flag s self b' b r :
  objects s !! self = Some (PreventShutdown b r) →
  objects (set_objects (alter (write_flag b') self) s) !! self
    = Some (PreventShutdown b' r).
Proof. intros H. simpl. by rewrite lookup_alter_eq, H. Qed.

Lemma get_flag_guard s self b r :
  objects s !! self = Some (PreventShutdown b r) → get_flag self s = (Normal b, s).
Proof. intros H. unfold get_flag. by rewrite H. Qed.

Lemma get_reason_guard s self b r :
  objects s !! self = Some (PreventShutdown b r) → get_reason self s = (Normal r, s).
Proof. intros H. unfold get_reason. by rewrite H. Qed.

Lemma is_ready_to_shutdown_guard s self b r :
  objects s !! self = Some (PreventShutdown b r) →
  is_ready_to_shutdown self s = (Normal (negb b), s).
Proof.
  intros H. unfold is_ready_to_shutdown. unfold_M.
  by rewrite (get_flag_guard _ _ _ _ H).
Qed.

Lemma is_ready_guard user_predicate s self b r :
  objects s !! self = Some (PreventShutdown b r) →
  is_ready user_predicate self s = (Normal (negb b), s).
Proof.
  intros H. unfold is_ready. rewrite H. by apply is_ready_to_shutdown_guard with r.
Qed.

Lemma aenter_guard s self b r :
  objects s !! self = Some (PreventShutdown b r) →
  __aenter__ self s
    = (Normal tt, set_objects (alter (write_flag true) self)
                    (add_log (EnteringPreventionContext r) s)).
Proof.
  intros H. unfold __aenter__, set_flag. unfold_M.
  by rewrite (get_reason_guard _ _ _ _ H).
Qed.

Lemma aexit_guard s self exc b r :
  objects s !! self = Some (PreventShutdown b r) →
  __aexit__ self exc s
    = (Normal false, set_objects (alter (write_flag false) self)
                       (add_log (ExitingPreventionContext r) s)).
Proof.
  intros H. unfold __aexit__, set_flag. unfold_M.
  by rewrite (get_reason_guard _ _ _ _ H).
Qed.

Lemma before_yield_guard s self b r :
  objects s !! self = Some (PreventShutdown b r) →
  allow_shutdown_before_yield self s
    = (Normal b, set_objects (alter (write_flag false) self)
                   (add_log (EnteringNegatedContext r b) s)).
Proof.
  intros H. unfold allow_shutdown_before_yield, set_flag. unfold_M.
  by rewrite (get_flag_guard _ _ _ _ H), (get_reason_guard _ _ _ _ H).
Qed.

Lemma after_yield_guard s self initial_state b r :
  objects s !! self = Some (PreventShutdown b r) →
  allow_shutdown_after_yield self initial_state s
    = (Normal tt, set_objects (alter (write_flag initial_state) self)
                    (add_log (ExitingNegatedContext r initial_state) s)).
Proof.
  intros H. unfold allow_shutdown_after_yield, set_flag. unfold_M.
  by rewrite (get_reason_guard _ _ _ _ H).
Qed.

(** *** The guard and its readiness predicate *)

(** C4.  For a guard whose blocking flag is [b]: its readiness predicate, and
    the coordinator's poll of the guard as a condition, answer [negb b], so
    the guard is ready to shut down exactly when the flag is false; entering
    the guard leaves it reporting not ready; exiting the guard leaves it
    reporting ready. *)
Theorem PreventShutdown_ready_iff_not_blocking
    (user_predicate : nat → M Process bool)
    (s : Process) (self : oid) (b : bool) (r : string) :
  objects s !! self = Some (PreventShutdown b r) →
  is_ready_to_shutdown self s = (Normal (negb b), s)
  ∧ is_ready user_predicate self s = (Normal (negb b), s)
  ∧ (∃ s1, __aenter__ self s = (Normal tt, s1)
       ∧ objects s1 !! self = Some (PreventShutdown true r)
       ∧ is_ready user_predicate self s1 = (Normal false, s1))
  ∧ (∀ exc, ∃ s2, __aexit__ self exc s = (Normal false, s2)
       ∧ objects s2 !! self = Some (PreventShutdown false r)
       ∧ is_ready user_predicate self s2 = (Normal true, s2)).
Proof.
  intros H. split; [|split; [|split]].
  - by apply is_ready_to_shutdown_guard with r.
  - by apply is_ready_guard with r.
  - eexists. split; [by apply aenter_guard with b|].
    assert (Hon := lookup_write_flag (add_log (EnteringPreventionContext r) s)
                     self true b r H).
    split; [exact Hon|]. exact (is_ready_guard _ _ _ _ _ Hon).
  - intros exc. eexists. split; [by apply aexit_guard with b|].
    assert (Hoff := lookup_write_flag (add_log (ExitingPreventionContext r) s)
                      self false b r H).
    split; [exact Hoff|]. exact (is_ready_guard _ _ _ _ _ Hoff).
Qed.

(** *** Leaving a guard *)

Lemma with_self_guard {A} s self b r (body : M Process A) s1 res s2 b2 r2 :
  objects s !! self = Some (PreventShutdown b r) →
  __aenter__ self s = (Normal tt, s1) →
  body s1 = (res, s2) →
  objects s2 !! self = Some (PreventShutdown b2 r2) →
  with_self self body s
    = (match res with Normal v => Normal (Some v) | Raise e => Raise e end,
       set_objects (alter (write_flag false) self)
         (add_log (ExitingPreventionContext r2) s2)).
Proof.
  intros H Henter Hbody H2. unfold with_self, async_with.
  rewrite Henter, Hbody.
  destruct res as [v|e]; by rewrite (aexit_guard _ _ _ _ _ H2).
Qed.

(** C10.  Whatever the flag was when the guard was entered and whatever the
    body left in it, and whether the body returned or raised, leaving the
    guard clears the flag: the guard then reports ready.  [__aexit__] answers
    false, so an exception of the body is raised again from the [async with]
    statement, and from the decorated coroutine function alike. *)
Theorem PreventShutdown_exit_clears_flag_and_reraises {Args A}
    (user_predicate : nat → M Process bool)
    (s : Process) (self : oid) (b : bool) (r : string)
    (function : Args → M Process A) (args : Args)
    (s1 s2 : Process) (res : outcome A) (b2 : bool) (r2 : string) :
  objects s !! self = Some (PreventShutdown b r) →
  __aenter__ self s = (Normal tt, s1) →
  function args s1 = (res, s2) →
  objects s2 !! self = Some (PreventShutdown b2 r2) →
  ∃ s3,
    __aexit__ self (match res with Normal _ => None | Raise e => Some e end) s2
      = (Normal false, s3)
    ∧ with_self self (function args) s
      = (match res with Normal v => Normal (Some v) | Raise e => Raise e end, s3)
    ∧ __call__ self function args s
      = (match res with Normal v => Normal (Some v) | Raise e => Raise e end, s3)
    ∧ objects s3 !! self = Some (PreventShutdown false r2)
    ∧ is_ready user_predicate self s3 = (Normal true, s3).
Proof.
  intros H Henter Hbody H2.
  assert (Hoff := lookup_write_flag (add_log (ExitingPreventionContext r2) s2)
                    self false b2 r2 H2).
  eexists. split; [by apply aexit_guard with b2|].
  split; [by apply with_self_guard with b r s1 b2|].
  split; [unfold __call__; by apply with_self_guard with b r s1 b2|].
  split; [exact Hoff|]. exact (is_ready_guard _ _ _ _ _ Hoff).
Qed.

(** *** Allowing shutdown inside a guard *)

Lemma allow_shutdown_guard {A} s self b r (body : M Process A) v s2 b2 r2 :
  objects s !! self = Some (PreventShutdown b r) →
  body (set_objects (alter (write_flag false) self)
          (add_log (EnteringNegatedContext r b) s)) = (Normal v, s2) →
  objects s2 !! self = Some (PreventShutdown b2 r2) →
  allow_shutdown self body s
    = (Normal v, set_objects (alter (write_flag b) self)
                   (add_log (ExitingNegatedContext r2 b) s2)).
Proof.
  intros H Hbody H2. unfold allow_shutdown.
  rewrite (before_yield_guard _ _ _ _ H), Hbody.
  by rewrite (after_yield_guard _ _ _ _ _ H2).
Qed.

(** When the body raises, the statements after [yield] are skipped: the flag
    stays as the body left it. *)
Lemma allow_shutdown_body_raises {A} s self b r (body : M Process A) e s2 :
  objects s !! self = Some (PreventShutdown b r) →
  body (set_objects (alter (write_flag false) self)
          (add_log (EnteringNegatedContext r b) s)) = (Raise e, s2) →
  allow_shutdown self body s = (Raise e, s2).
Proof.
  intros H Hbody. unfold allow_shutdown.
  by rewrite (before_yield_guard _ _ _ _ H), Hbody.
Qed.

(** What [allow_shutdown] does for a body that completes.  A guard whose
    flag is [b] enters [S d] nested [allow_shutdown] scopes.  The body starts in a state [s_in] where the flag is false.  When
    the body completes, whatever it left in the flag, the scopes are left
    from the inside out: each of the [d] inner ones restores false, the value
    it saved, and the outermost restores [b]; so the flag is [b] again
    afterwards, for [b] true and for [b] false. *)
Theorem allow_shutdown_restores_flag {A}
    (d : nat) (s : Process) (self : oid) (b : bool) (r : string)
    (body : M Process A) :
  objects s !! self = Some (PreventShutdown b r) →
  ∃ s_in,
    objects s_in !! self = Some (PreventShutdown false r)
    ∧ ∀ v s_out b' r',
        body s_in = (Normal v, s_out) →
        objects s_out !! self = Some (PreventShutdown b' r') →
        ∃ s',
          nested_allow_shutdown (S d) self body s = (Normal v, s')
          ∧ objects s' !! self = Some (PreventShutdown b r')
          ∧ log s' = log s_out ++ replicate d (ExitingNegatedContext r' false)
                       ++ [ExitingNegatedContext r' b].
Proof.
  revert s b. induction d as [|d IH]; intros s b H.
  - eexists. split.
    + exact (lookup_write_flag (add_log (EnteringNegatedContext r b) s)
               self false b r H).
    + intros v s_out b' r' Hbody Hout. eexists. split; [|split].
      * simpl. by apply allow_shutdown_guard with r b'.
      * exact (lookup_write_flag (add_log (ExitingNegatedContext r' b) s_out)
                 self b b' r' Hout).
      * reflexivity.
  - assert (Hoff := lookup_write_flag (add_log (EnteringNegatedContext r b) s)
                      self false b r H).
    destruct (IH _ _ Hoff) as (s_in & Hin & Hrun).
    exists s_in. split; [exact Hin|].
    intros v s_out b' r' Hbody Hout.
    destruct (Hrun v s_out b' r' Hbody Hout) as (s'' & Hnest & Hobj & Hlog).
    eexists. split; [|split].
    + change (nested_allow_shutdown (S (S d)) self body)
        with (allow_shutdown self (nested_allow_shutdown (S d) self body)).
      by apply allow_shutdown_guard with r false.
    + exact (lookup_write_flag (add_log (ExitingNegatedContext r' b) s'')
               self b false r' Hobj).
    + simpl log at 1. rewrite Hlog.
      rewrite <- !(assoc_L (++)). f_equal.
      change (ExitingNegatedContext r' false :: ?l) with ([ExitingNegatedContext r' false] ++ l).
      rewrite replicate_S_end. by rewrite <- !(assoc_L (++)).
Qed.

(** *** The singleton handler *)

Lemma call_resets s :
  GracefulShutdownHandler_call s
    = (Normal tt, set_singleton (Some (mkHandler false false)) s).
Proof.
  unfold GracefulShutdownHandler_call, __new__, __init__,
    set_is_shutting_down, set_is_running. unfold_M.
  destruct s as [o i n [h|] sh l]; reflexivity.
Qed.

Lemma run_prologue_not_running s h :
  _singleton s = Some h → _is_running h = false →
  run_prologue s
    = (Normal tt,
       add_signal_handler SIGTERM (add_signal_handler SIGINT
         (set_singleton (Some (mkHandler (_is_shutting_down h) true)) s))).
Proof.
  intros Hs Hr. unfold run_prologue, get_is_running, set_is_running. unfold_M.
  rewrite Hs, Hr. simpl. by rewrite Hs.
Qed.

Lemma run_prologue_running s h :
  _singleton s = Some h → _is_running h = true →
  run_prologue s
    = (Raise (RuntimeError "Graceful shutdown handler may be run only once"), s).
Proof.
  intros Hs Hr. unfold run_prologue, get_is_running. unfold_M.
  by rewrite Hs, Hr.
Qed.

(** C6.  A first signal, received in the Running state, is logged and sets
    [_is_shutting_down]; it leaves [_is_running] as it was.  A signal received
    in the ShuttingDown state is logged as repeated and changes nothing else
    in the process.  So, from any state, a second signal after a first one
    only adds a record to the log, and the handler is in the ShuttingDown
    state after one signal as after two. *)
Theorem shutdown_signal_idempotent (s : Process) (h : GracefulShutdownHandler)
    (sig sig' : Signals) :
  _singleton s = Some h →
  ∃ s1,
    _shutdown_signal_handler sig s = (Normal tt, s1)
    ∧ _singleton s1 = Some (mkHandler true (_is_running h))
    ∧ (_is_shutting_down h = false →
       s1 = set_singleton (Some (mkHandler true (_is_running h)))
              (add_log (ShutdownSignalReceived sig) s))
    ∧ (_is_shutting_down h = true →
       s1 = add_log (RepeatedShutdownSignal sig) s)
    ∧ _shutdown_signal_handler sig' s1
        = (Normal tt, add_log (RepeatedShutdownSignal sig') s1).
Proof.
  intros Hs. destruct h as [[|] running].
  - exists (add_log (RepeatedShutdownSignal sig) s).
    unfold _shutdown_signal_handler, get_is_shutting_down. unfold_M.
    simpl. rewrite Hs. simpl. repeat split; done.
  - exists (set_singleton (Some (mkHandler true running))
              (add_log (ShutdownSignalReceived sig) s)).
    unfold _shutdown_signal_handler, get_is_shutting_down, set_is_shutting_down.
    unfold_M. simpl. rewrite Hs. simpl. rewrite Hs. repeat split; done.
Qed.

(** C9.  From every state of the process, [is_shutting_down()] answers False
    and leaves the singleton with both attributes False: constructing the
    handler returns the singleton and runs [__init__] on it again. *)
Theorem is_shutting_down_always_false_and_resets (s : Process) :
  is_shutting_down s
    = (Normal false, set_singleton (Some (mkHandler false false)) s)
  ∧ _singleton (snd (is_shutting_down s)) = Some (mkHandler false false).
Proof.
  assert (H : is_shutting_down s
              = (Normal false, set_singleton (Some (mkHandler false false)) s)).
  { unfold is_shutting_down. unfold mbind, M_bind.
    by rewrite call_resets. }
  split; [exact H|]. by rewrite H.
Qed.

(** C7, on the code.  A first loop is started on the handler:
    [GracefulShutdownHandler().run()].  Calling [run] again on the same
    object raises RuntimeError.  But after the handler is constructed once
    more, which [is_shutting_down()] does as well, [run] no longer raises: it
    goes on to install the signal handlers and enters a second loop. *)
Theorem second_run_after_construction_is_not_refused
    (user_predicate : nat → M Process bool) (asyncio_sleep : nat → M Process unit)
    (s : Process) :
  ∃ s1 s2 s3 s4,
    GracefulShutdownHandler_call s = (Normal tt, s1)
    ∧ run_prologue s1 = (Normal tt, s2)
    ∧ _singleton s2 = Some (mkHandler false true)
    ∧ run user_predicate asyncio_sleep 0 s2
        = Some (RuntimeError "Graceful shutdown handler may be run only once", s2)
    ∧ GracefulShutdownHandler_call s2 = (Normal tt, s3)
    ∧ run_prologue s3 = (Normal tt, s4)
    ∧ run user_predicate asyncio_sleep 0 s3 = None.
Proof.
  do 4 eexists.
  split; [apply call_resets|].
  split; [by apply run_prologue_not_running with (h := mkHandler false false)|].
  split; [reflexivity|].
  split.
  { unfold run.
    by rewrite (run_prologue_running _ (mkHandler false true)). }
  split; [apply call_resets|].
  split; [by apply run_prologue_not_running with (h := mkHandler false false)|].
  unfold run.
  by rewrite (run_prologue_not_running _ (mkHandler false false)).
Qed.

(** *** The polling loop *)

Section polling.

Variable user_predicate : nat → M Process bool.
Variable asyncio_sleep : nat → M Process unit.

Local Abbreviation is_ready := (is_ready user_predicate).
Local Abbreviation for_conditions_from := (for_conditions_from user_predicate).
Local Abbreviation for_conditions := (for_conditions user_predicate).
Local Abbreviation loop_body := (loop_body user_predicate asyncio_sleep).
Local Abbreviation while_true := (while_true user_predicate asyncio_sleep).
Local Abbreviation after_iterations := (after_iterations user_predicate asyncio_sleep).
Local Abbreviation reports := (reports user_predicate).
Local Abbreviation finds_not_ready := (finds_not_ready user_predicate asyncio_sleep).
Local Abbreviation finds_all_ready := (finds_all_ready user_predicate asyncio_sleep).

(** The set has its size of the beginning as long as the process is as it
    was. *)
Lemma for_conditions_from_unfold (ids : list oid) (t : Process) :
  for_conditions_from (length (instances t)) ids t
  = match ids with
    | [] => (Normal true, t)
    | condition :: rest =>
        match objects t !! condition with
        | None => for_conditions_from (length (instances t)) rest t
        | Some o =>
            (ready ← is_ready condition;
             if negb ready then
               logger (ConditionNotSatisfied (description o));;
               mret false
             else for_conditions_from (length (instances t)) rest
               : M Process bool) t
        end
    end.
Proof.
  destruct ids; cbn [GracefulShutdown.for_conditions_from];
    by rewrite bool_decide_eq_true_2.
Qed.

Lemma for_conditions_all_ready (ids : list oid) (t : Process) :
  (∀ c, c ∈ ids → is_Some (objects t !! c) → reports t c true) →
  for_conditions_from (length (instances t)) ids t = (Normal true, t).
Proof.
  induction ids as [|c ids IH]; intros Hall; rewrite for_conditions_from_unfold;
    [reflexivity|].
  destruct (objects t !! c) as [o|] eqn:Hc.
  - unfold mbind, M_bind.
    rewrite (Hall c); [|left|by rewrite Hc]. simpl.
    apply IH. intros c' Hin. apply Hall. by right.
  - apply IH. intros c' Hin. apply Hall. by right.
Qed.

Lemma for_conditions_not_ready (ids : list oid) (t : Process) :
  (∀ c, c ∈ ids → is_Some (objects t !! c) → ∃ b, reports t c b) →
  (∃ c, c ∈ ids ∧ is_Some (objects t !! c) ∧ reports t c false) →
  ∃ c o, c ∈ ids ∧ objects t !! c = Some o ∧ reports t c false
    ∧ for_conditions_from (length (instances t)) ids t
      = (Normal false, add_log (ConditionNotSatisfied (description o)) t).
Proof.
  induction ids as [|c ids IH]; intros Hrep (c0 & Hin0 & Halive0 & Hfalse0).
  { by apply elem_of_nil in Hin0. }
  rewrite for_conditions_from_unfold. destruct (objects t !! c) as [o|] eqn:Hc.
  - destruct (Hrep c) as [b Hb]; [left|by rewrite Hc|].
    destruct b.
    + unfold mbind, M_bind. rewrite Hb. simpl.
      apply elem_of_cons in Hin0 as [->|Hin0].
      { unfold GracefulShutdown.reports in Hb, Hfalse0. congruence. }
      destruct IH as (c1 & o1 & Hin1 & Ho1 & Hf1 & Hrun).
      * intros c' Hin. apply Hrep. by right.
      * by exists c0.
      * exists c1, o1. repeat split; try done. by right.
    + exists c, o. split; [left|]. split; [done|]. split; [done|].
      unfold mbind, M_bind. rewrite Hb. reflexivity.
  - apply elem_of_cons in Hin0 as [->|Hin0].
    { rewrite Hc in Halive0. by destruct Halive0. }
    destruct IH as (c1 & o1 & Hin1 & Ho1 & Hf1 & Hrun).
    + intros c' Hin. apply Hrep. by right.
    + by exists c0.
    + exists c1, o1. repeat split; try done. by right.
Qed.

Lemma get_is_shutting_down_true (t : Process) :
  ShuttingDown t → get_is_shutting_down t = (Normal true, t).
Proof.
  intros (h & Hs & Hb). unfold get_is_shutting_down. by rewrite Hs, Hb.
Qed.

Lemma loop_body_not_ready (k : nat) (s t : Process) :
  finds_not_ready k s t →
  ∃ c o, alive t c ∧ objects t !! c = Some o ∧ reports t c false
    ∧ loop_body k s
      = (Normal tt, add_log (ConditionNotSatisfied (description o)) t).
Proof.
  intros (Hsleep & Hdown & Hrep & c0 & [Hin0 Halive0] & Hfalse0).
  destruct (for_conditions_not_ready (instances t) t)
    as (c & o & Hin & Ho & Hf & Hrun).
  { intros c Hin Halive. by apply Hrep. }
  { by exists c0. }
  exists c, o. split; [split; [done|by rewrite Ho]|]. split; [done|]. split; [done|].
  unfold GracefulShutdown.loop_body. unfold mbind, M_bind, gets.
  rewrite Hsleep, (get_is_shutting_down_true _ Hdown). simpl.
  unfold GracefulShutdown.for_conditions. by rewrite Hrun.
Qed.

Lemma loop_body_all_ready (k : nat) (s t : Process) :
  finds_all_ready k s t →
  loop_body k s = (Raise SystemExit, add_log AllConditionsSatisfied t).
Proof.
  intros (Hsleep & Hdown & Hall).
  unfold GracefulShutdown.loop_body. unfold mbind, M_bind, gets.
  rewrite Hsleep, (get_is_shutting_down_true _ Hdown). simpl.
  unfold GracefulShutdown.for_conditions.
  rewrite for_conditions_all_ready; [reflexivity|].
  intros c Hin Halive. by apply Hall.
Qed.


End polling.

End GracefulShutdownProperties.

(** ** Properties of telebot/webhook.py *)

Module WebhookProperties.
Import Webhook.

Section handler.

Context {World Body Json Update Bot BotRunner : Type}.
Variable webhook_route : BotRunner → string.
Variable bot : BotRunner → Bot.
Variable update_id : Update → Z.
Variable request_json : Request Body → M World Json.
Variable de_json : Json → M World (option Update).
Variable process_new_updates : Bot → list Update → M World unit.
Variable logger_exception : update_id_or_text → option Update → M World unit.

Local Abbreviation bot_runner_by_route := (bot_runner_by_route webhook_route).
Local Abbreviation handle_update :=
  (handle_update webhook_route bot update_id request_json de_json
     process_new_updates logger_exception).

(** *** The routes of the hosted bots *)

Lemma lookup_foldl_insert_None (l : list BotRunner) (d : gmap string BotRunner)
    (route : string) :
  foldl (λ d bw, <[webhook_route bw := bw]> d) d l !! route = None
  ↔ d !! route = None ∧ ∀ bw, bw ∈ l → webhook_route bw ≠ route.
Proof.
  revert d. induction l as [|bw0 l IH]; intros d; simpl.
  - split; [intros H; split; [done|]|by intros [H _]].
    intros bw Hin. by apply elem_of_nil in Hin.
  - rewrite IH. rewrite lookup_insert_None. split.
    + intros [[Hd Hne] Hl]. split; [done|].
      intros bw Hin. apply elem_of_cons in Hin as [->|Hin]; [done|by apply Hl].
    + intros [Hd Hl]. split; [split; [done|]|].
      * apply Hl. by left.
      * intros bw Hin. apply Hl. by right.
Qed.

Lemma lookup_foldl_insert_Some (l : list BotRunner) (d : gmap string BotRunner)
    (route : string) (bw : BotRunner) :
  foldl (λ d bw, <[webhook_route bw := bw]> d) d l !! route = Some bw →
  d !! route = Some bw ∨ (bw ∈ l ∧ webhook_route bw = route).
Proof.
  revert d. induction l as [|bw0 l IH]; intros d; simpl; [by left|].
  intros H. apply IH in H as [H|[Hin Hr]].
  - apply lookup_insert_Some in H as [[Hr <-]|[_ H]]; [|by left].
    right. split; [by left|done].
  - right. split; [by right|done].
Qed.

Lemma bot_runner_by_route_unmapped (bot_runners : list BotRunner) (route : string) :
  bot_runner_by_route bot_runners !! route = None
  ↔ ∀ bw, bw ∈ bot_runners → webhook_route bw ≠ route.
Proof.
  unfold Webhook.bot_runner_by_route. rewrite lookup_foldl_insert_None.
  split; [by intros [_ H]|]. intros H. split; [apply lookup_empty|done].
Qed.

Lemma bot_runner_by_route_mapped (bot_runners : list BotRunner) (route : string) :
  (∃ bw, bw ∈ bot_runners ∧ webhook_route bw = route) →
  ∃ bw, bw ∈ bot_runners ∧ webhook_route bw = route
    ∧ bot_runner_by_route bot_runners !! route = Some bw.
Proof.
  intros (bw0 & Hin0 & Hr0).
  destruct (bot_runner_by_route bot_runners !! route) as [bw|] eqn:Hlook.
  - exists bw. unfold Webhook.bot_runner_by_route in Hlook.
    apply lookup_foldl_insert_Some in Hlook as [Hlook|[Hin Hr]].
    + by rewrite lookup_empty in Hlook.
    + done.
  - exfalso. rewrite bot_runner_by_route_unmapped in Hlook.
    by apply (Hlook bw0).
Qed.

(** *** [return] in a [finally] block *)

Lemma try_finally_return {S} (body : block S) (r : Response) (s : S) :
  try_finally body (mret (Some r)) s = (Normal (Some r), snd (body s)).
Proof. unfold try_finally. by destruct (body s). Qed.

Lemma handle_update_mapped (bot_runners : list BotRunner) (request : Request Body)
    (route : string) (bot_runner : BotRunner) (w : World) :
  match_info request !! "route" = Some route →
  bot_runner_by_route bot_runners !! route = Some bot_runner →
  ∃ w', handle_update bot_runners request w = (Normal (Some (mkResponse 200)), w').
Proof.
  intros Hroute Hbot. unfold Webhook.handle_update. rewrite Hroute, Hbot.
  unfold finally_body. rewrite try_finally_return. by eexists.
Qed.

(** C1.  A request whose route segment is the route of a hosted bot is
    answered with status 200 and no exception leaves the handler, whatever
    reading the body, decoding the update, the bot's processing and the
    logger do, raising an exception of any class included. *)
Theorem handle_update_mapped_route_returns_200 (bot_runners : list BotRunner)
    (request : Request Body) (route : string) (w : World) :
  match_info request !! "route" = Some route →
  (∃ bw, bw ∈ bot_runners ∧ webhook_route bw = route) →
  ∃ w', handle_update bot_runners request w = (Normal (Some (mkResponse 200)), w').
Proof.
  intros Hroute Hhosted.
  destruct (bot_runner_by_route_mapped _ _ Hhosted) as (bw & _ & _ & Hbot).
  by apply handle_update_mapped with route bw.
Qed.

(** C8.  A request without a route segment is answered with status 404, and
    a request whose route segment is the route of no hosted bot with status
    403.  In both cases the handler returns at once: the process is left as
    it was, nothing of the request is read and no bot is called. *)
Theorem handle_update_404_and_403 (bot_runners : list BotRunner)
    (request : Request Body) (w : World) :
  (match_info request !! "route" = None →
   handle_update bot_runners request w = (Normal (Some (mkResponse 404)), w))
  ∧ (∀ route,
       match_info request !! "route" = Some route →
       (∀ bw, bw ∈ bot_runners → webhook_route bw ≠ route) →
       handle_update bot_runners request w = (Normal (Some (mkResponse 403)), w)).
Proof.
  split.
  - intros Hroute. unfold Webhook.handle_update. by rewrite Hroute.
  - intros route Hroute Hunmapped.
    apply bot_runner_by_route_unmapped in Hunmapped.
    unfold Webhook.handle_update. by rewrite Hroute, Hunmapped.
Qed.

End handler.

End WebhookProperties.

(** ** The properties on the example process *)

Module GracefulShutdownExamples.
Import GracefulShutdown Scenario GracefulShutdownProperties.

(** The example process after SIGTERM. *)
Example after_SIGTERM_state :
  after_SIGTERM
  = mkProcess
      {[0 := PreventShutdown false "performing background task 1";
        1 := PreventShutdown true "performing background task 2"]}
      [0; 1] 2 (Some (mkHandler true true)) [SIGTERM; SIGINT]
      [EnteringPreventionContext "performing background task 2";
       ShutdownSignalReceived SIGTERM].
Proof. vm_compute. reflexivity. Qed.

(** One poll of the conditions in this state stops at the guard of the second
    job. *)
Example poll_after_SIGTERM :
  for_conditions no_user_predicate (instances after_SIGTERM) after_SIGTERM
  = (Normal false,
     add_log (ConditionNotSatisfied "Preventing shutdown, performing background task 2")
       after_SIGTERM).
Proof. vm_compute. reflexivity. Qed.

(** Asking [is_shutting_down()] in this state answers False and takes the
    handler back to the Running state. *)
Example is_shutting_down_after_SIGTERM :
  is_shutting_down after_SIGTERM
  = (Normal false, set_singleton (Some (mkHandler false false)) after_SIGTERM).
Proof. vm_compute. reflexivity. Qed.

Lemma after_SIGTERM_job :
  objects after_SIGTERM !! 1
    = Some (PreventShutdown true "performing background task 2").
Proof. vm_compute. reflexivity. Defined.

(** The guard of the second job is entered: it reports not ready, and ready
    once it is left. *)
Lemma PreventShutdown_ready_iff_not_blocking_witness :
  objects after_SIGTERM !! 1
    = Some (PreventShutdown true "performing background task 2")
  ∧ is_ready no_user_predicate 1 after_SIGTERM = (Normal false, after_SIGTERM)
  ∧ ∃ s2, __aexit__ 1 None after_SIGTERM = (Normal false, s2)
      ∧ is_ready no_user_predicate 1 s2 = (Normal true, s2).
Proof.
  destruct (PreventShutdown_ready_iff_not_blocking no_user_predicate
              after_SIGTERM 1 true "performing background task 2"
              after_SIGTERM_job) as (_ & Hpoll & _ & Hexit).
  split; [exact after_SIGTERM_job|]. split; [exact Hpoll|].
  destruct (Hexit None) as (s2 & Hs2 & _ & Hready).
  exists s2. split; [exact Hs2|exact Hready].
Defined.

(** The decorated job raises ValueError: the exception leaves the decorated
    function and the guard reports ready. *)
Lemma PreventShutdown_exit_clears_flag_and_reraises_witness :
  objects after_SIGTERM !! 1
    = Some (PreventShutdown true "performing background task 2")
  ∧ ∃ s3,
      __call__ 1 (λ _ : unit, failing_body) tt after_SIGTERM
        = (Raise (OtherException "ValueError"), s3)
      ∧ is_ready no_user_predicate 1 s3 = (Normal true, s3).
Proof.
  split; [exact after_SIGTERM_job|].
  destruct (PreventShutdown_exit_clears_flag_and_reraises no_user_predicate
              after_SIGTERM 1 true "performing background task 2"
              (λ _ : unit, failing_body) tt
              (snd (__aenter__ 1 after_SIGTERM))
              (snd (__aenter__ 1 after_SIGTERM))
              (Raise (OtherException "ValueError"))
              true "performing background task 2")
    as (s3 & _ & _ & Hcall & _ & Hready).
  - exact after_SIGTERM_job.
  - vm_compute. reflexivity.
  - reflexivity.
  - vm_compute. reflexivity.
  - exists s3. split; [exact Hcall|exact Hready].
Defined.

(** Two nested [allow_shutdown] scopes inside the entered guard: the flag is
    true again after them. *)
Lemma allow_shutdown_restores_flag_witness :
  objects after_SIGTERM !! 1
    = Some (PreventShutdown true "performing background task 2")
  ∧ ∃ s',
      nested_allow_shutdown 2 1 (mret tt) after_SIGTERM = (Normal tt, s')
      ∧ objects s' !! 1
        = Some (PreventShutdown true "performing background task 2").
Proof.
  split; [exact after_SIGTERM_job|].
  destruct (allow_shutdown_restores_flag (A := unit) 1 after_SIGTERM 1 true
              "performing background task 2" (mret tt) after_SIGTERM_job)
    as (s_in & Hin & Hrun).
  destruct (Hrun tt s_in false "performing background task 2" eq_refl Hin)
    as (s' & Hnest & Hflag & _).
  exists s'. split; [exact Hnest|exact Hflag].
Defined.

(** C5.  The code fails the claim when the body of the scope raises.  The
    guard of the second job is entered, so the flag is true when the
    [allow_shutdown] scope is entered; the body raises ValueError; the
    generator has no [try ... finally] around its [yield], so the assignment
    that restores the flag is skipped, and the flag is false after the scope
    was left, where the claim has it true again: the guard, which is still
    entered, now reports ready to shut down. *)
Lemma allow_shutdown_does_not_restore_when_body_raises :
  objects after_SIGTERM !! 1
    = Some (PreventShutdown true "performing background task 2")
  ∧ ∃ s',
      allow_shutdown 1 failing_body after_SIGTERM
      = (Raise (OtherException "ValueError"), s')
      ∧ objects s' !! 1
        = Some (PreventShutdown false "performing background task 2")
      ∧ is_ready no_user_predicate 1 s' = (Normal true, s').
Proof.
  split; [exact after_SIGTERM_job|].
  exists (snd (allow_shutdown 1 failing_body after_SIGTERM)).
  split; [vm_compute; reflexivity|].
  split; vm_compute; reflexivity.
Qed.

(** SIGTERM and then SIGINT, in the Running state. *)
Lemma shutdown_signal_idempotent_witness :
  _singleton guarded = Some (mkHandler false true)
  ∧ ∃ s1,
      _shutdown_signal_handler SIGTERM guarded = (Normal tt, s1)
      ∧ _singleton s1 = Some (mkHandler true true)
      ∧ _shutdown_signal_handler SIGINT s1
        = (Normal tt, add_log (RepeatedShutdownSignal SIGINT) s1).
Proof.
  assert (H : _singleton guarded = Some (mkHandler false true))
    by (vm_compute; reflexivity).
  split; [exact H|].
  destruct (shutdown_signal_idempotent guarded (mkHandler false true)
              SIGTERM SIGINT H) as (s1 & H1 & Hs1 & _ & _ & H2).
  exists s1. split; [exact H1|]. split; [exact Hs1|exact H2].
Defined.

Lemma after_SIGTERM_instances : instances after_SIGTERM = [0; 1].
Proof. vm_compute. reflexivity. Defined.


End GracefulShutdownExamples.

Module WebhookExamples.
Import GracefulShutdown Webhook Scenario WebhookProperties.

(** An update is decoded and given to the bot. *)
Example update_is_processed :
  handler (post "testing" (Some 5%Z)) (mkWorld fresh [])
  = (Normal (Some (mkResponse 200)), mkWorld fresh [5%Z]).
Proof. vm_compute. reflexivity. Qed.

(** The body is not JSON: [request.json] raises before [update] is assigned,
    so the [except] block itself raises UnboundLocalError when it reads
    [update]; the [return] of the [finally] block discards that exception. *)
Example body_is_not_json :
  try_except_Exception
    (try_body snd request_json de_json process_new_updates
       ("testing", tt) (post "testing" None))
    (except_body (λ u : Z, u) logger_exception)
    (mkFrame None (mkWorld fresh []))
  = (Raise (UnboundLocalError "update"), mkFrame None (mkWorld fresh []))
  ∧ handler (post "testing" None) (mkWorld fresh [])
    = (Normal (Some (mkResponse 200)), mkWorld fresh []).
Proof. split; vm_compute; reflexivity. Qed.

(** The body decodes to no update: nothing is given to the bot. *)
Example no_update :
  handler (post "testing" (Some 0%Z)) (mkWorld fresh [])
  = (Normal (Some (mkResponse 200)), mkWorld fresh []).
Proof. vm_compute. reflexivity. Qed.

(** The bot's processing is cancelled: CancelledError is not an Exception
    and is not caught by the [except] clause. *)
Example processing_is_cancelled :
  try_except_Exception
    (try_body snd request_json de_json process_new_updates
       ("testing", tt) (post "testing" (Some 13%Z)))
    (except_body (λ u : Z, u) logger_exception)
    (mkFrame None (mkWorld fresh []))
  = (Raise (OtherBaseException "CancelledError"),
     mkFrame (Some (Some 13%Z)) (mkWorld fresh [])).
Proof. vm_compute. reflexivity. Qed.

(** The bot's processing of update 13 is cancelled, an exception that is not
    an Exception: the request is answered with status 200 all the same. *)
Lemma handle_update_mapped_route_returns_200_witness :
  match_info (post "testing" (Some 13%Z)) !! "route" = Some "testing"
  ∧ (∃ bw, bw ∈ bot_runners ∧ fst bw = "testing")
  ∧ ∃ w', handler (post "testing" (Some 13%Z)) (mkWorld fresh [])
          = (Normal (Some (mkResponse 200)), w').
Proof.
  assert (Hroute : match_info (post "testing" (Some 13%Z)) !! "route"
                   = Some "testing") by (vm_compute; reflexivity).
  assert (Hhosted : ∃ bw, bw ∈ bot_runners ∧ fst bw = "testing").
  { exists ("testing", tt). split; [left|reflexivity]. }
  split; [exact Hroute|]. split; [exact Hhosted|].
  exact (handle_update_mapped_route_returns_200 fst snd (λ u : Z, u)
           request_json de_json process_new_updates logger_exception
           bot_runners (post "testing" (Some 13%Z)) "testing"
           (mkWorld fresh []) Hroute Hhosted).
Defined.

(** A request without a route segment, and a request for a route that no
    hosted bot has. *)
Lemma handle_update_404_and_403_witness :
  match_info (mkRequest ∅ (Some 7%Z)) !! "route" = None
  ∧ handler (mkRequest ∅ (Some 7%Z)) (mkWorld fresh [])
    = (Normal (Some (mkResponse 404)), mkWorld fresh [])
  ∧ match_info (post "unknown-route" (Some 7%Z)) !! "route" = Some "unknown-route"
  ∧ (∀ bw, bw ∈ bot_runners → fst bw ≠ "unknown-route")
  ∧ handler (post "unknown-route" (Some 7%Z)) (mkWorld fresh [])
    = (Normal (Some (mkResponse 403)), mkWorld fresh []).
Proof.
  assert (Hnone : match_info (mkRequest ∅ (Some 7%Z)) !! "route" = None)
    by (vm_compute; reflexivity).
  assert (Hroute : match_info (post "unknown-route" (Some 7%Z)) !! "route"
                   = Some "unknown-route") by (vm_compute; reflexivity).
  assert (Hunmapped : ∀ bw, bw ∈ bot_runners → fst bw ≠ "unknown-route").
  { intros bw Hin. apply elem_of_cons in Hin as [->|Hin]; [discriminate|].
    by apply elem_of_nil in Hin. }
  split; [exact Hnone|]. split.
  { exact (proj1 (handle_update_404_and_403 fst snd (λ u : Z, u)
                    request_json de_json process_new_updates logger_exception
                    bot_runners (mkRequest ∅ (Some 7%Z)) (mkWorld fresh []))
             Hnone). }
  split; [exact Hroute|]. split; [exact Hunmapped|].
  exact (proj2 (handle_update_404_and_403 fst snd (λ u : Z, u)
                  request_json de_json process_new_updates logger_exception
                  bot_runners (post "unknown-route" (Some 7%Z)) (mkWorld fresh []))
           "unknown-route" Hroute Hunmapped).
Defined.

End WebhookExamples.

(** * Further properties *)

(** ** More on telebot/graceful_shutdown.py *)

Module GracefulShutdownFurther.
Import GracefulShutdown ProcessState GracefulShutdownProperties.

(** *** Making a guard *)

(** X1.  In a process whose identities in use are below the next one,
    [PreventShutdown(reason)] makes an object that was not there before,
    registers it, and leaves it ready to shut down: a guard that was made but
    not entered does not hold the coordinator back.  The other objects are as
    they were, the conditions alive before are still alive, and the
    identities in use are again below the next one. *)
Theorem new_guard_is_registered_and_ready
    (user_predicate : nat → M Process bool) (reason : string) (s : Process) :
  ids_below_next s →
  ∃ g s',
    PreventShutdown_new reason s = (Normal g, s')
    ∧ objects s !! g = None ∧ (g ∉ instances s)
    ∧ objects s' !! g = Some (PreventShutdown false reason)
    ∧ alive s' g
    ∧ is_ready user_predicate g s' = (Normal true, s')
    ∧ (∀ c, c ≠ g → objects s' !! c = objects s !! c)
    ∧ (∀ c, alive s c → alive s' c)
    ∧ ids_below_next s'.
Proof.
  intros [Hobj Hinst].
  exists (next_oid s). eexists. split; [reflexivity|].
  assert (Hfresh : objects s !! next_oid s = None).
  { destruct (objects s !! next_oid s) eqn:E; [|done].
    assert (next_oid s < next_oid s) by (apply Hobj; eexists; exact E). lia. }
  assert (Hnotin : next_oid s ∉ instances s).
  { intros Hin. apply Hinst in Hin. lia. }
  assert (Hnew : objects
                   (mkProcess (<[next_oid s := PreventShutdown false reason]> (objects s))
                      (instances s ++ [next_oid s]) (S (next_oid s)) (_singleton s)
                      (signal_handlers s) (log s)) !! next_oid s
                 = Some (PreventShutdown false reason)).
  { simpl. apply lookup_insert_eq. }
  split; [exact Hfresh|]. split; [exact Hnotin|]. split; [exact Hnew|].
  split.
  { split; [simpl; apply elem_of_app; right; left|by rewrite Hnew]. }
  split; [exact (is_ready_guard _ _ _ _ _ Hnew)|].
  split.
  { intros c Hc. simpl. by apply lookup_insert_ne. }
  split.
  { intros c [Hin Halive]. split; [simpl; apply elem_of_app; by left|].
    simpl. rewrite lookup_insert_ne; [done|].
    intros <-. rewrite Hfresh in Halive. by destruct Halive. }
  split; simpl.
  - intros i Hi. destruct (decide (i = next_oid s)) as [->|Hne]; [lia|].
    rewrite lookup_insert_ne in Hi by done. apply Hobj in Hi. lia.
  - intros i Hi. apply elem_of_app in Hi as [Hi|Hi].
    + apply Hinst in Hi. lia.
    + apply list_elem_of_singleton in Hi as ->. lia.
Qed.

(** *** Guards do not touch one another *)

Lemma set_flag_other (g g' : oid) (b : bool) (s : Process) :
  g ≠ g' →
  objects (set_objects (alter (write_flag b) g) s) !! g' = objects s !! g'.
Proof. intros Hne. simpl. by apply lookup_alter_ne. Qed.

Lemma get_reason_state (g : oid) (s s' : Process) (res : outcome string) :
  get_reason g s = (res, s') → s' = s.
Proof.
  unfold get_reason. destruct (objects s !! g) as [[p d|b r]|]; congruence.
Qed.

Lemma get_flag_state (g : oid) (s s' : Process) (res : outcome bool) :
  get_flag g s = (res, s') → s' = s.
Proof.
  unfold get_flag. destruct (objects s !! g) as [[p d|b r]|]; congruence.
Qed.

(** X2.  Entering a guard, leaving it, and the two halves of its
    [allow_shutdown] scope act on that guard only: whatever their outcome,
    every other object, the set of registered conditions and the handler are
    as before. *)
Theorem guard_operations_leave_other_objects (g g' : oid) (s : Process) :
  g ≠ g' →
  let untouched (s' : Process) :=
    objects s' !! g' = objects s !! g'
    ∧ instances s' = instances s
    ∧ _singleton s' = _singleton s in
  untouched (snd (__aenter__ g s))
  ∧ (∀ exc, untouched (snd (__aexit__ g exc s)))
  ∧ untouched (snd (allow_shutdown_before_yield g s))
  ∧ (∀ initial_state, untouched (snd (allow_shutdown_after_yield g initial_state s))).
Proof.
  intros Hne untouched. unfold untouched.
  unfold __aenter__, __aexit__, allow_shutdown_before_yield,
    allow_shutdown_after_yield, set_flag. unfold_M.
  split; [|split; [|split]]; intros;
    repeat match goal with
    | |- context [get_reason g ?s0] =>
        let E := fresh "E" in
        destruct (get_reason g s0) as [[?|?] ?] eqn:E;
        apply get_reason_state in E; subst
    | |- context [get_flag g ?s0] =>
        let E := fresh "E" in
        destruct (get_flag g s0) as [[?|?] ?] eqn:E;
        apply get_flag_state in E; subst
    end; simpl; rewrite ?lookup_alter_ne by done; done.
Qed.

(** *** Leaving nested scopes by an exception *)

(** X7.  A guard enters [S d] nested [allow_shutdown] scopes and the body
    raises.  The exception leaves all the scopes and none of them restores
    anything: the process is left exactly as the body left it, so the flag is
    what the body left, false if the body did not write it. *)
Theorem nested_allow_shutdown_body_raises {A}
    (d : nat) (s : Process) (self : oid) (b : bool) (r : string)
    (body : M Process A) :
  objects s !! self = Some (PreventShutdown b r) →
  ∃ s_in,
    objects s_in !! self = Some (PreventShutdown false r)
    ∧ ∀ e s_out,
        body s_in = (Raise e, s_out) →
        nested_allow_shutdown (S d) self body s = (Raise e, s_out).
Proof.
  revert s b. induction d as [|d IH]; intros s b H.
  - eexists. split.
    + exact (lookup_write_flag (add_log (EnteringNegatedContext r b) s)
               self false b r H).
    + intros e s_out Hbody. simpl.
      by apply allow_shutdown_body_raises with b r.
  - assert (Hoff := lookup_write_flag (add_log (EnteringNegatedContext r b) s)
                      self false b r H).
    destruct (IH _ _ Hoff) as (s_in & Hin & Hrun).
    exists s_in. split; [exact Hin|].
    intros e s_out Hbody.
    change (nested_allow_shutdown (S (S d)) self body)
      with (allow_shutdown self (nested_allow_shutdown (S d) self body)).
    apply allow_shutdown_body_raises with b r; [exact H|].
    by apply Hrun.
Qed.

(** *** More on the polling loop *)

Section polling_further.

Variable user_predicate : nat → M Process bool.
Variable asyncio_sleep : nat → M Process unit.

Local Abbreviation is_ready := (is_ready user_predicate).
Local Abbreviation for_conditions_from := (for_conditions_from user_predicate).
Local Abbreviation for_conditions := (for_conditions user_predicate).
Local Abbreviation loop_body := (loop_body user_predicate asyncio_sleep).
Local Abbreviation while_true := (while_true user_predicate asyncio_sleep).
Local Abbreviation after_iterations := (after_iterations user_predicate asyncio_sleep).

Lemma get_is_shutting_down_false (t : Process) :
  Running t → get_is_shutting_down t = (Normal false, t).
Proof.
  intros (h & Hs & Hb). unfold get_is_shutting_down. by rewrite Hs, Hb.
Qed.

Lemma loop_body_running (k : nat) (s t : Process) :
  asyncio_sleep k s = (Normal tt, t) → Running t →
  loop_body k s = (Normal tt, t).
Proof.
  intros Hsleep Hrun. unfold GracefulShutdown.loop_body. unfold mbind, M_bind.
  by rewrite Hsleep, (get_is_shutting_down_false _ Hrun).
Qed.

(** X3.  As long as the coordinator wakes up in the Running state, the loop
    goes on and does nothing of its own: after each execution of the body the
    process is exactly as the sleep left it.  No condition is polled, nothing
    is logged and nothing is raised, whatever the conditions would report. *)
Theorem polling_loop_idle_while_running (n k : nat) (s : Process) :
  (∀ i, i < n →
     ∃ t, asyncio_sleep (k + i) (after_iterations i k s) = (Normal tt, t)
          ∧ Running t) →
  while_true n k s = None
  ∧ ∀ i, i < n →
      after_iterations (S i) k s
      = snd (asyncio_sleep (k + i) (after_iterations i k s)).
Proof.
  revert k s. induction n as [|n IH]; intros k s Hidle.
  - split; [reflexivity|]. intros i Hi. lia.
  - destruct (Hidle 0) as (t0 & Hsleep0 & Hrun0); [lia|].
    rewrite Nat.add_0_r in Hsleep0. simpl in Hsleep0.
    assert (Hstep := loop_body_running _ _ _ Hsleep0 Hrun0).
    destruct (IH (S k) t0) as [Hloop Hstates].
    { intros i Hi. destruct (Hidle (S i)) as (t & Ht & Hr); [lia|].
      simpl in Ht. rewrite Hstep in Ht. simpl in Ht.
      exists t. by replace (S k + i) with (k + S i) by lia. }
    split.
    + simpl. by rewrite Hstep.
    + intros [|i] Hi.
      * simpl. rewrite Hstep, Nat.add_0_r, Hsleep0. reflexivity.
      * replace (k + S i) with (S k + i) by lia.
        change (after_iterations (S (S i)) k s)
          with (after_iterations (S i) (S k) (snd (loop_body k s))).
        change (after_iterations (S i) k s)
          with (after_iterations i (S k) (snd (loop_body k s))).
        rewrite Hstep. simpl snd. apply Hstates. lia.
Qed.

(** A pass that went over [pre] with every poll answering ready and the set
    keeping its size goes on with what follows [pre]. *)
Lemma for_conditions_from_app (size : nat) (pre post : list oid) (s s1 : Process) :
  for_conditions_from size pre s = (Normal true, s1) →
  for_conditions_from size (pre ++ post) s = for_conditions_from size post s1
  ∧ length (instances s1) = size.
Proof.
  revert s. induction pre as [|c pre IH]; intros s Hpre.
  - cbn [GracefulShutdown.for_conditions_from] in Hpre.
    destruct (bool_decide (length (instances s) = size)) eqn:Hsize;
      [|discriminate]. injection Hpre as <-.
    split; [reflexivity|]. by apply bool_decide_eq_true in Hsize.
  - cbn [app GracefulShutdown.for_conditions_from] in *.
    destruct (bool_decide (length (instances s) = size)); [|discriminate].
    destruct (objects s !! c) as [o|]; [|by apply IH].
    unfold mbind, M_bind in *.
    destruct (is_ready c s) as [[[|]|e] s0]; simpl in *.
    + by apply IH.
    + unfold logger, modify, mret, M_ret in Hpre. discriminate.
    + discriminate.
Qed.

(** The pass over a set that holds [pre], then [c], comes to [c]. *)
Lemma for_conditions_reaches (pre post : list oid) (c : oid) (o : Object)
    (s s1 : Process) :
  instances s = pre ++ c :: post →
  for_conditions_from (length (instances s)) pre s = (Normal true, s1) →
  objects s1 !! c = Some o →
  for_conditions (instances s) s
  = (ready ← is_ready c;
     if negb ready then
       logger (ConditionNotSatisfied (description o));;
       mret false
     else for_conditions_from (length (instances s)) post : M Process bool) s1.
Proof.
  intros Hinst Hpre Hc.
  destruct (for_conditions_from_app _ pre (c :: post) _ _ Hpre) as [Hgo Hsize].
  unfold GracefulShutdown.for_conditions.
  transitivity (for_conditions_from (length (instances s)) (pre ++ c :: post) s);
    [by rewrite <- Hinst|].
  rewrite Hgo. cbn [GracefulShutdown.for_conditions_from].
  by rewrite bool_decide_eq_true_2, Hc.
Qed.

(** X4.  One pass over the registered conditions, in which the polls of the
    conditions that come first answer ready and leave the set of registered
    conditions as it is, stops at the first alive condition that does not
    report ready.  If that condition reports not ready, its description
    is logged and the pass ends at [break]; if its predicate raises, the
    exception leaves the pass.  In both cases the conditions after it are
    not polled. *)
Theorem poll_stops_at_first_unready (pre post : list oid) (c : oid) (o : Object)
    (s s1 s2 : Process) :
  instances s = pre ++ c :: post →
  for_conditions_from (length (instances s)) pre s = (Normal true, s1) →
  instances s1 = instances s →
  objects s1 !! c = Some o →
  (is_ready c s1 = (Normal false, s2) →
   for_conditions (instances s) s
   = (Normal false, add_log (ConditionNotSatisfied (description o)) s2))
  ∧ (∀ e, is_ready c s1 = (Raise e, s2) →
     for_conditions (instances s) s = (Raise e, s2)).
Proof.
  intros Hinst Hpre _ Hc. rewrite (for_conditions_reaches _ _ _ _ _ _ Hinst Hpre Hc).
  unfold mbind, M_bind.
  split; [intros ->|intros e ->]; reflexivity.
Qed.

(** X5.  The coordinator wakes up in the ShuttingDown state; the conditions
    polled first report ready and leave the set of registered conditions as
    it is, and then the predicate of an alive condition raises.  The
    exception is not handled: it ends the loop, and [run] with it, in place
    of SystemExit, and "all conditions satisfied" is not logged. *)
Theorem predicate_exception_ends_loop (k fuel : nat) (pre post : list oid)
    (c : oid) (o : Object) (e : exn) (s t t1 t2 : Process) :
  asyncio_sleep k s = (Normal tt, t) →
  ShuttingDown t →
  instances t = pre ++ c :: post →
  for_conditions_from (length (instances t)) pre t = (Normal true, t1) →
  instances t1 = instances t →
  objects t1 !! c = Some o →
  is_ready c t1 = (Raise e, t2) →
  loop_body k s = (Raise e, t2)
  ∧ while_true (S fuel) k s = Some (e, t2).
Proof.
  intros Hsleep Hdown Hinst Hpre _ Hc Hraise.
  assert (Hbody : loop_body k s = (Raise e, t2)).
  { unfold GracefulShutdown.loop_body. unfold mbind, M_bind, gets.
    rewrite Hsleep, (get_is_shutting_down_true _ Hdown). simpl.
    rewrite (for_conditions_reaches _ _ _ _ _ _ Hinst Hpre Hc).
    unfold mbind, M_bind. by rewrite Hraise. }
  split; [exact Hbody|]. simpl. by rewrite Hbody.
Qed.

End polling_further.

(** *** Asking whether the process is shutting down *)

(** X6.  A signal takes the coordinator to the ShuttingDown state; a call of
    [is_shutting_down()] then takes it back to the Running state.  The
    received signal is lost: when the coordinator wakes up with the handler
    as the call left it, the loop goes on without polling, so it does not
    exit even if every condition is ready, and the next signal is handled as
    a first one. *)
Theorem is_shutting_down_discards_signal
    (user_predicate : nat → M Process bool) (asyncio_sleep : nat → M Process unit)
    (k : nat) (sig sig' : Signals) (s : Process) (h : GracefulShutdownHandler) :
  _singleton s = Some h →
  let s1 := snd (_shutdown_signal_handler sig s) in
  let s2 := snd (is_shutting_down s1) in
  ShuttingDown s1
  ∧ Running s2
  ∧ (∀ t, asyncio_sleep k s2 = (Normal tt, t) →
          _singleton t = _singleton s2 →
          loop_body user_predicate asyncio_sleep k s2 = (Normal tt, t))
  ∧ _shutdown_signal_handler sig' s2
    = (Normal tt, set_singleton (Some (mkHandler true false))
                    (add_log (ShutdownSignalReceived sig') s2)).
Proof.
  intros Hs s1 s2.
  assert (H1 : _singleton s1 = Some (mkHandler true (_is_running h))).
  { unfold s1, _shutdown_signal_handler, get_is_shutting_down,
      set_is_shutting_down. unfold_M. rewrite Hs.
    destruct h as [[|] running]; simpl; [done|by rewrite Hs]. }
  assert (H2 : s2 = set_singleton (Some (mkHandler false false)) s1).
  { unfold s2, is_shutting_down. unfold mbind, M_bind.
    by rewrite call_resets. }
  split; [by eexists|].
  assert (Hrun : Running s2) by (rewrite H2; by eexists).
  split; [exact Hrun|]. split.
  - intros t Hsleep Hsame.
    apply loop_body_running; [exact Hsleep|].
    destruct Hrun as (h2 & Hh2 & Hb). exists h2. by rewrite Hsame.
  - rewrite H2. reflexivity.
Qed.

End GracefulShutdownFurther.

Module GracefulShutdownFurtherExamples.
Import GracefulShutdown ProcessState Scenario ScenarioFurther
  GracefulShutdownProperties GracefulShutdownFurther.

(** The first guard of a fresh process. *)
Lemma new_guard_is_registered_and_ready_witness :
  ids_below_next fresh
  ∧ ∃ s', PreventShutdown_new "performing background task 1" fresh = (Normal 0, s')
      ∧ is_ready no_user_predicate 0 s' = (Normal true, s').
Proof.
  assert (H : ids_below_next fresh).
  { split; intros i Hi.
    - simpl in Hi. rewrite lookup_empty in Hi. by destruct Hi.
    - by apply elem_of_nil in Hi. }
  split; [exact H|].
  destruct (new_guard_is_registered_and_ready no_user_predicate
              "performing background task 1" fresh H)
    as (g & s' & Hnew & _ & _ & _ & _ & Hready & _).
  assert (g = 0) as -> by (vm_compute in Hnew; congruence).
  exists s'. split; [exact Hnew|exact Hready].
Defined.

(** Entering the first guard leaves the second as it is. *)
Lemma guard_operations_leave_other_objects_witness :
  0 ≠ 1
  ∧ objects (snd (__aenter__ 0 after_SIGTERM)) !! 1 = objects after_SIGTERM !! 1.
Proof.
  assert (H : 0 ≠ 1) by discriminate.
  split; [exact H|].
  exact (proj1 (proj1 (guard_operations_leave_other_objects 0 1 after_SIGTERM H))).
Defined.

(** Two nested scopes inside the entered guard, left by ValueError. *)
Lemma nested_allow_shutdown_body_raises_witness :
  objects after_SIGTERM !! 1
    = Some (PreventShutdown true "performing background task 2")
  ∧ ∃ s',
      nested_allow_shutdown 2 1 failing_body after_SIGTERM
        = (Raise (OtherException "ValueError"), s')
      ∧ objects s' !! 1
        = Some (PreventShutdown false "performing background task 2").
Proof.
  split; [exact GracefulShutdownExamples.after_SIGTERM_job|].
  destruct (nested_allow_shutdown_body_raises 1 after_SIGTERM 1 true
              "performing background task 2" failing_body
              GracefulShutdownExamples.after_SIGTERM_job)
    as (s_in & Hin & Hrun).
  exists s_in. split; [|exact Hin].
  apply Hrun. reflexivity.
Defined.

(** Before the signal, three executions of the body. *)
Lemma polling_loop_idle_while_running_witness :
  (∀ i, i < 3 →
     ∃ t, quiet_sleep (0 + i)
            (after_iterations no_user_predicate quiet_sleep i 0 guarded)
          = (Normal tt, t) ∧ Running t)
  ∧ while_true no_user_predicate quiet_sleep 3 0 guarded = None.
Proof.
  assert (H : ∀ i, i < 3 →
     ∃ t, quiet_sleep (0 + i)
            (after_iterations no_user_predicate quiet_sleep i 0 guarded)
          = (Normal tt, t) ∧ Running t).
  { intros i Hi. eexists. split; [reflexivity|].
    exists (mkHandler false true).
    destruct i as [|[|[|i]]]; [| | |lia]; split; vm_compute; reflexivity. }
  split; [exact H|].
  exact (proj1 (polling_loop_idle_while_running no_user_predicate quiet_sleep
                  3 0 guarded H)).
Defined.

(** After SIGTERM the pass over the conditions stops at the guard of the
    second job. *)
Lemma poll_stops_at_first_unready_witness :
  instances after_SIGTERM = [0] ++ 1 :: []
  ∧ for_conditions_from no_user_predicate (length (instances after_SIGTERM)) [0]
      after_SIGTERM
    = (Normal true, after_SIGTERM)
  ∧ objects after_SIGTERM !! 1
    = Some (PreventShutdown true "performing background task 2")
  ∧ is_ready no_user_predicate 1 after_SIGTERM = (Normal false, after_SIGTERM)
  ∧ for_conditions no_user_predicate (instances after_SIGTERM) after_SIGTERM
    = (Normal false,
       add_log (ConditionNotSatisfied
                  "Preventing shutdown, performing background task 2")
         after_SIGTERM).
Proof.
  assert (Hinst : instances after_SIGTERM = [0] ++ 1 :: [])
    by (vm_compute; reflexivity).
  assert (Hpre : for_conditions_from no_user_predicate
                   (length (instances after_SIGTERM)) [0] after_SIGTERM
                 = (Normal true, after_SIGTERM)) by (vm_compute; reflexivity).
  assert (Hc := GracefulShutdownExamples.after_SIGTERM_job).
  assert (Hnot : is_ready no_user_predicate 1 after_SIGTERM
                 = (Normal false, after_SIGTERM)) by (vm_compute; reflexivity).
  split; [exact Hinst|]. split; [exact Hpre|]. split; [exact Hc|].
  split; [exact Hnot|].
  exact (proj1 (poll_stops_at_first_unready no_user_predicate [0] [] 1 _
                  after_SIGTERM after_SIGTERM after_SIGTERM Hinst Hpre eq_refl Hc)
           Hnot).
Defined.

(** The two guards are ready and the predicate of the plain condition
    raises ConnectionError: [run]'s loop ends with it. *)
Lemma predicate_exception_ends_loop_witness :
  ShuttingDown with_failing_condition
  ∧ instances with_failing_condition = [0; 1] ++ 2 :: []
  ∧ while_true failing_predicate quiet_sleep 1 0 with_failing_condition
    = Some (OtherException "ConnectionError", with_failing_condition).
Proof.
  assert (Hdown : ShuttingDown with_failing_condition).
  { exists (mkHandler true true). split; vm_compute; reflexivity. }
  assert (Hinst : instances with_failing_condition = [0; 1] ++ 2 :: [])
    by (vm_compute; reflexivity).
  split; [exact Hdown|]. split; [exact Hinst|].
  refine (proj2 (predicate_exception_ends_loop failing_predicate quiet_sleep
                   0 0 [0; 1] [] 2 (Condition 0 "database is flushed")
                   (OtherException "ConnectionError")
                   with_failing_condition with_failing_condition
                   with_failing_condition with_failing_condition
                   eq_refl Hdown Hinst _ eq_refl _ _)); vm_compute; reflexivity.
Defined.

(** The predicate of the plain condition makes a guard when it is polled:
    the set has changed size when the loop asks for the next condition. *)
Example registering_predicate_ends_loop :
  fst (loop_body registering_predicate quiet_sleep 0 with_failing_condition)
  = Raise (RuntimeError "Set changed size during iteration").
Proof. vm_compute. reflexivity. Qed.

(** SIGTERM, then [is_shutting_down()], then SIGINT. *)
Lemma is_shutting_down_discards_signal_witness :
  _singleton guarded = Some (mkHandler false true)
  ∧ Running (snd (is_shutting_down after_SIGTERM))
  ∧ loop_body no_user_predicate quiet_sleep 0 (snd (is_shutting_down after_SIGTERM))
    = (Normal tt, snd (is_shutting_down after_SIGTERM)).
Proof.
  assert (H : _singleton guarded = Some (mkHandler false true))
    by (vm_compute; reflexivity).
  split; [exact H|].
  destruct (is_shutting_down_discards_signal no_user_predicate quiet_sleep
              0 SIGTERM SIGINT guarded (mkHandler false true) H)
    as (_ & Hrun & Hloop & _).
  split; [exact Hrun|].
  apply Hloop; reflexivity.
Defined.

End GracefulShutdownFurtherExamples.

(** ** More on telebot/webhook.py *)

Module WebhookFurther.
Import Webhook WebhookProperties.

Ltac unfold_M := cbv [mbind M_bind mret M_ret modify gets raise] in *.

Section handler_further.

Context {World Body Json Update Bot BotRunner : Type}.
Variable webhook_route : BotRunner → string.
Variable bot : BotRunner → Bot.
Variable update_id : Update → Z.
Variable request_json : Request Body → M World Json.
Variable de_json : Json → M World (option Update).
Variable process_new_updates : Bot → list Update → M World unit.
Variable logger_exception : update_id_or_text → option Update → M World unit.

Local Abbreviation bot_runner_by_route := (bot_runner_by_route webhook_route).
Local Abbreviation handle_update :=
  (handle_update webhook_route bot update_id request_json de_json
     process_new_updates logger_exception).

Lemma lookup_foldl_insert_last (l : list BotRunner) (d : gmap string BotRunner)
    (route : string) :
  foldl (λ d bw, <[webhook_route bw := bw]> d) d l !! route
  = match last (filter (λ bw, webhook_route bw = route) l) with
    | Some bw => Some bw
    | None => d !! route
    end.
Proof.
  revert d. induction l as [|bw0 l IH]; intros d; simpl; [done|].
  rewrite IH, filter_cons. destruct (decide (webhook_route bw0 = route)) as [Heq|Hne].
  - destruct (filter (λ bw, webhook_route bw = route) l) as [|bw1 l'] eqn:Hf.
    + simpl. rewrite <- Heq. apply lookup_insert_eq.
    + rewrite last_cons_cons. destruct (last (bw1 :: l')) eqn:Hl; [done|].
      by apply last_None in Hl.
  - destruct (last (filter (λ bw, webhook_route bw = route) l)); [done|].
    by apply lookup_insert_ne.
Qed.

(** X8.  The dictionary of routes maps a route to the last runner of the list
    that has it: when two hosted runners have the same route, the updates for
    it go to the later one and the earlier one is never reached. *)
Theorem bot_runner_by_route_last_wins (bot_runners : list BotRunner) (route : string) :
  bot_runner_by_route bot_runners !! route
  = last (filter (λ bw, webhook_route bw = route) bot_runners).
Proof.
  unfold Webhook.bot_runner_by_route. rewrite lookup_foldl_insert_last.
  destruct (last _); [done|apply lookup_empty].
Qed.

Section mapped.

Variable bot_runners : list BotRunner.
Variable request : Request Body.
Variable route : string.
Variable bot_runner : BotRunner.
Hypothesis Hroute : match_info request !! "route" = Some route.
Hypothesis Hrunner : bot_runner_by_route bot_runners !! route = Some bot_runner.

Lemma handle_update_try (w : World) :
  handle_update bot_runners request w
  = (Normal (Some (mkResponse 200)),
     world (snd (try_except_Exception
                   (try_body bot request_json de_json process_new_updates
                      bot_runner request)
                   (except_body update_id logger_exception)
                   (mkFrame None w)))).
Proof.
  unfold Webhook.handle_update. rewrite Hroute, Hrunner.
  unfold finally_body. by rewrite try_finally_return.
Qed.

(** X9.  The body of a request for a hosted bot is read, then decoded.  If it
    decodes to an update, the bot of the runner mapped to the route is given
    that one update, and when its processing returns, the answer is 200 and
    the process is as the processing left it.  If it decodes to None, no bot
    is called.  The logger is not called in either case. *)
Theorem handle_update_dispatches_to_mapped_bot (w w1 w2 : World) (j : Json)
    (decoded : option Update) :
  request_json request w = (Normal j, w1) →
  de_json j w1 = (Normal decoded, w2) →
  match decoded with
  | Some u =>
      ∀ w3, process_new_updates (bot bot_runner) [u] w2 = (Normal tt, w3) →
            handle_update bot_runners request w
            = (Normal (Some (mkResponse 200)), w3)
  | None =>
      handle_update bot_runners request w = (Normal (Some (mkResponse 200)), w2)
  end.
Proof.
  intros Hjson Hdecode. destruct decoded as [u|].
  - intros w3 Hprocess. rewrite handle_update_try.
    unfold try_except_Exception, try_body, lift, assign_update, read_update.
    unfold_M. simpl. rewrite Hjson. simpl. rewrite Hdecode. simpl.
    by rewrite Hprocess.
  - rewrite handle_update_try.
    unfold try_except_Exception, try_body, lift, assign_update, read_update.
    unfold_M. simpl. rewrite Hjson. simpl. by rewrite Hdecode.
Qed.

(** X10.  When reading the body or decoding the update raises, an exception
    of any class, the answer is 200 and the process is as the failed call
    left it: no bot is called, and the logger is not called either, because
    the [except] block reads [update] before it was assigned and so fails
    before it logs. *)
Theorem handle_update_decode_failure_is_silent (w : World) (e : exn) :
  (∀ w1, request_json request w = (Raise e, w1) →
         handle_update bot_runners request w
         = (Normal (Some (mkResponse 200)), w1))
  ∧ (∀ j w1 w2, request_json request w = (Normal j, w1) →
                de_json j w1 = (Raise e, w2) →
                handle_update bot_runners request w
                = (Normal (Some (mkResponse 200)), w2)).
Proof.
  split.
  - intros w1 Hjson. rewrite handle_update_try.
    unfold try_except_Exception, try_body, except_body, lift, read_update.
    unfold_M. simpl. rewrite Hjson. by destruct (is_Exception e).
  - intros j w1 w2 Hjson Hdecode. rewrite handle_update_try.
    unfold try_except_Exception, try_body, except_body, lift, read_update.
    unfold_M. simpl. rewrite Hjson. simpl. rewrite Hdecode.
    by destruct (is_Exception e).
Qed.

(** X11.  When the bot's processing of the update raises, the answer is 200.
    An exception of class Exception is given to the logger once, with the
    identifier of the update and the update; an exception of another class
    (a cancellation, SystemExit) is dropped without being logged. *)
Theorem handle_update_processing_failure (w w1 w2 w3 : World) (j : Json)
    (u : Update) (e : exn) :
  request_json request w = (Normal j, w1) →
  de_json j w1 = (Normal (Some u), w2) →
  process_new_updates (bot bot_runner) [u] w2 = (Raise e, w3) →
  handle_update bot_runners request w
  = (Normal (Some (mkResponse 200)),
     if is_Exception e
     then snd (logger_exception (Id (update_id u)) (Some u) w3)
     else w3).
Proof.
  intros Hjson Hdecode Hprocess. rewrite handle_update_try.
  unfold try_except_Exception, try_body, except_body, lift, assign_update,
    read_update.
  unfold_M. simpl. rewrite Hjson. simpl. rewrite Hdecode. simpl.
  rewrite Hprocess.
  destruct (is_Exception e); [|reflexivity].
  simpl. by destruct (logger_exception (Id (update_id u)) (Some u) w3) as [[?|?] ?].
Qed.

End mapped.

End handler_further.

End WebhookFurther.

Module WebhookFurtherExamples.
Import GracefulShutdown Webhook Scenario WebhookFurther.

Lemma testing_route (body : option Z) :
  match_info (post "testing" body) !! "route" = Some "testing".
Proof. vm_compute. reflexivity. Defined.

Lemma testing_runner :
  bot_runner_by_route fst bot_runners !! "testing" = Some ("testing", tt).
Proof. vm_compute. reflexivity. Defined.

(** Two runners with the same route: the second one is served. *)
Example second_runner_shadows_first :
  bot_runner_by_route fst [("testing", 1); ("other", 2); ("testing", 3)] !! "testing"
  = Some ("testing", 3).
Proof. vm_compute. reflexivity. Qed.

(** Update 5 is given to the bot. *)
Lemma handle_update_dispatches_to_mapped_bot_witness :
  match_info (post "testing" (Some 5%Z)) !! "route" = Some "testing"
  ∧ bot_runner_by_route fst bot_runners !! "testing" = Some ("testing", tt)
  ∧ handler (post "testing" (Some 5%Z)) (mkWorld fresh [])
    = (Normal (Some (mkResponse 200)), mkWorld fresh [5%Z]).
Proof.
  split; [exact (testing_route _)|]. split; [exact testing_runner|].
  exact (handle_update_dispatches_to_mapped_bot fst snd (λ u : Z, u)
           request_json de_json process_new_updates logger_exception
           bot_runners (post "testing" (Some 5%Z)) "testing" ("testing", tt)
           (testing_route _) testing_runner
           (mkWorld fresh []) (mkWorld fresh []) (mkWorld fresh []) 5%Z (Some 5%Z)
           eq_refl eq_refl (mkWorld fresh [5%Z]) eq_refl).
Defined.

(** The body is not JSON. *)
Lemma handle_update_decode_failure_is_silent_witness :
  match_info (post "testing" None) !! "route" = Some "testing"
  ∧ bot_runner_by_route fst bot_runners !! "testing" = Some ("testing", tt)
  ∧ handler (post "testing" None) (mkWorld fresh [])
    = (Normal (Some (mkResponse 200)), mkWorld fresh []).
Proof.
  split; [exact (testing_route _)|]. split; [exact testing_runner|].
  exact (proj1 (handle_update_decode_failure_is_silent fst snd (λ u : Z, u)
                  request_json de_json process_new_updates logger_exception
                  bot_runners (post "testing" None) "testing" ("testing", tt)
                  (testing_route _) testing_runner
                  (mkWorld fresh []) (OtherException "JSONDecodeError"))
           (mkWorld fresh []) eq_refl).
Defined.

(** The processing of update 13 is cancelled. *)
Lemma handle_update_processing_failure_witness :
  match_info (post "testing" (Some 13%Z)) !! "route" = Some "testing"
  ∧ bot_runner_by_route fst bot_runners !! "testing" = Some ("testing", tt)
  ∧ handler (post "testing" (Some 13%Z)) (mkWorld fresh [])
    = (Normal (Some (mkResponse 200)), mkWorld fresh []).
Proof.
  split; [exact (testing_route _)|]. split; [exact testing_runner|].
  exact (handle_update_processing_failure fst snd (λ u : Z, u)
           request_json de_json process_new_updates logger_exception
           bot_runners (post "testing" (Some 13%Z)) "testing" ("testing", tt)
           (testing_route _) testing_runner
           (mkWorld fresh []) (mkWorld fresh []) (mkWorld fresh [])
           (mkWorld fresh []) 13%Z 13%Z (OtherBaseException "CancelledError")
           eq_refl eq_refl eq_refl).
Defined.

End WebhookFurtherExamples.

(** ** Starting the webhook server *)

Module WebhookStartupProperties.
Import Webhook WebhookStartup.

(** *** Dictionaries *)

Lemma get_setitem {V} (k k' : string) (v : V) (d : PyDict.dict V) :
  PyDict.get k' (PyDict.setitem k v d)
  = if decide (k = k') then Some v else PyDict.get k' d.
Proof.
  induction d as [|[k0 v0] d IH]; simpl.
  - repeat case_decide; congruence.
  - destruct (decide (k = k0)) as [->|Hne]; simpl.
    + repeat case_decide; congruence.
    + rewrite IH. repeat case_decide; congruence.
Qed.

Lemma keys_setitem {V} (k : string) (v : V) (d : PyDict.dict V) :
  (PyDict.setitem k v d).*1 = if decide (k ∈ d.*1) then d.*1 else d.*1 ++ [k].
Proof.
  induction d as [|[k0 v0] d IH]; [reflexivity|].
  cbn [PyDict.setitem]. destruct (decide (k = k0)) as [->|Hne].
  - rewrite !fmap_cons. cbn [fst].
    destruct (decide (k0 ∈ k0 :: d.*1)) as [_|Hnin]; [done|].
    exfalso. apply Hnin. left.
  - rewrite !fmap_cons, IH. cbn [fst].
    destruct (decide (k ∈ d.*1)) as [Hin|Hnin].
    + destruct (decide (k ∈ k0 :: d.*1)) as [_|Hnin']; [done|].
      exfalso. apply Hnin'. by right.
    + destruct (decide (k ∈ k0 :: d.*1)) as [Hin'|_]; [|done].
      apply elem_of_cons in Hin' as [?|?]; congruence.
Qed.

Lemma NoDup_keys_setitem {V} (k : string) (v : V) (d : PyDict.dict V) :
  NoDup d.*1 → NoDup (PyDict.setitem k v d).*1.
Proof.
  intros Hd. rewrite keys_setitem. destruct (decide (k ∈ d.*1)); [done|].
  apply NoDup_app. split; [done|]. split.
  - intros x Hx Hk. apply list_elem_of_singleton in Hk as ->. done.
  - apply NoDup_singleton.
Qed.

Lemma get_Some_elem_of {V} (k : string) (v : V) (d : PyDict.dict V) :
  NoDup d.*1 → PyDict.get k d = Some v ↔ (k, v) ∈ d.
Proof.
  induction d as [|[k0 v0] d IH]; simpl; intros Hd.
  - split; [done|]. intros H. by apply elem_of_nil in H.
  - apply NoDup_cons in Hd as [Hk0 Hd].
    destruct (decide (k = k0)) as [->|Hne].
    + split.
      * intros [= ->]. left.
      * intros H. apply elem_of_cons in H as [[= ->]|H]; [done|].
        exfalso. apply Hk0. apply list_elem_of_fmap. by exists (k0, v).
    + rewrite (IH Hd). split; [by right|].
      intros H. apply elem_of_cons in H as [[= -> ->]|H]; [done|exact H].
Qed.

Section startup.

Context {Bot BotRunner Coro : Type}.
Variable webhook_route : BotRunner → string.
Variable bot : BotRunner → Bot.
Variable name : BotRunner → string.
Variable background_jobs : BotRunner → list Coro.

Local Abbreviation bot_runner_by_route := (bot_runner_by_route webhook_route).
Local Abbreviation bot_runner_by_route_items :=
  (bot_runner_by_route_items webhook_route).

Lemma foldl_setitem (l : list BotRunner) (d : PyDict.dict BotRunner)
    (m : gmap string BotRunner) :
  NoDup d.*1 →
  (∀ route, PyDict.get route d = m !! route) →
  let d' := foldl (λ d bw, PyDict.setitem (webhook_route bw) bw d) d l in
  NoDup d'.*1
  ∧ ∀ route, PyDict.get route d'
             = foldl (λ d bw, <[webhook_route bw := bw]> d) m l !! route.
Proof.
  revert d m. induction l as [|bw l IH]; intros d m Hd Hget; simpl; [done|].
  apply IH.
  - by apply NoDup_keys_setitem.
  - intros route. rewrite get_setitem, lookup_insert.
    destruct (decide (webhook_route bw = route)); [done|apply Hget].
Qed.

(** X12.  The items of the route dictionary, over which [setup_webhooks]
    goes, have pairwise different routes, and they are the routes that
    [handle_update] serves, each with the runner it serves the route with. *)
Theorem bot_runner_by_route_items_are_served (bot_runners : list BotRunner) :
  NoDup (bot_runner_by_route_items bot_runners).*1
  ∧ ∀ route br,
      (route, br) ∈ bot_runner_by_route_items bot_runners
      ↔ bot_runner_by_route bot_runners !! route = Some br.
Proof.
  destruct (foldl_setitem bot_runners [] ∅) as [Hnodup Hget].
  { apply NoDup_nil_2. }
  { intros route. simpl. by rewrite lookup_empty. }
  split; [exact Hnodup|].
  intros route br. rewrite <- (get_Some_elem_of _ _ _ Hnodup).
  unfold WebhookStartup.bot_runner_by_route_items, Webhook.bot_runner_by_route.
  by rewrite Hget.
Qed.

End startup.

Section startup_calls.

Context {Bot BotRunner Coro : Type}.
Variable webhook_route : BotRunner → string.
Variable bot : BotRunner → Bot.
Variable name : BotRunner → string.
Variable background_jobs : BotRunner → list Coro.

Local Abbreviation bot_runner_by_route := (bot_runner_by_route webhook_route).
Local Abbreviation bot_runner_by_route_items :=
  (bot_runner_by_route_items webhook_route).
Local Abbreviation rec_delete := (λ b : Bot, record (Coro := Coro) (DeleteWebhook b)).
Local Abbreviation rec_set :=
  (λ (b : Bot) url, record (Coro := Coro) (SetWebhook b url)).
Local Abbreviation rec_task := (λ c : Coro, record (Bot := Bot) (CreateTask c)).
Local Abbreviation rec_info := (λ r, record (Bot := Bot) (Coro := Coro) (Info r)).

Lemma setup_webhooks_for_recorded (base_url : string)
    (items : PyDict.dict BotRunner) (calls : list (Call Bot Coro)) :
  ∃ calls',
    setup_webhooks_for bot name rec_delete rec_set rec_info base_url items calls
    = (Normal tt, calls ++ calls')
    ∧ webhooks_set calls'
      = (λ item, (bot item.2, base_url +:+ "/" +:+ item.1 +:+ "/")) <$> items
    ∧ tasks_created calls' = [].
Proof.
  revert calls. induction items as [|[route br] items IH]; intros calls.
  - exists []. by rewrite app_nil_r.
  - simpl. unfold mbind, M_bind, record, modify. simpl.
    destruct (IH (((calls ++ [DeleteWebhook (bot br)])
                   ++ [SetWebhook (bot br) (base_url +:+ "/" +:+ route +:+ "/")])
                  ++ [Info (WebhookSet (name br))]))
      as (calls' & Hrun & Hset & Htasks).
    exists ([DeleteWebhook (bot br);
             SetWebhook (bot br) (base_url +:+ "/" +:+ route +:+ "/");
             Info (WebhookSet (name br))] ++ calls').
    split; [|split].
    + unfold mbind, M_bind, record, modify in Hrun. rewrite Hrun.
      by rewrite <- !(assoc_L (++)).
    + unfold webhooks_set in *. rewrite omap_app, Hset. reflexivity.
    + unfold tasks_created in *. rewrite omap_app, Htasks. reflexivity.
Qed.

Lemma create_tasks_for_recorded (bw : BotRunner) (idx : nat) (jobs : list Coro)
    (calls : list (Call Bot Coro)) :
  ∃ calls',
    create_tasks_for name rec_task rec_info bw idx jobs calls
    = (Normal tt, calls ++ calls')
    ∧ webhooks_set calls' = []
    ∧ tasks_created calls' = jobs.
Proof.
  revert idx calls. induction jobs as [|coro jobs IH]; intros idx calls.
  - exists []. by rewrite app_nil_r.
  - simpl. unfold mbind, M_bind, record, modify. simpl.
    destruct (IH (S idx) ((calls ++ [CreateTask coro])
                          ++ [Info (BackgroundTaskCreated idx (name bw))]))
      as (calls' & Hrun & Hset & Htasks).
    exists ([CreateTask coro; Info (BackgroundTaskCreated idx (name bw))] ++ calls').
    split; [|split].
    + unfold mbind, M_bind, record, modify in Hrun. rewrite Hrun.
      by rewrite <- !(assoc_L (++)).
    + unfold webhooks_set in *. rewrite omap_app, Hset. reflexivity.
    + unfold tasks_created in *. rewrite omap_app, Htasks. reflexivity.
Qed.

Lemma run_background_tasks_recorded (bot_runners : list BotRunner)
    (calls : list (Call Bot Coro)) :
  ∃ calls',
    run_background_tasks name background_jobs rec_task rec_info bot_runners calls
    = (Normal tt, calls ++ calls')
    ∧ webhooks_set calls' = []
    ∧ tasks_created calls' = concat (background_jobs <$> bot_runners).
Proof.
  revert calls. induction bot_runners as [|bw l IH]; intros calls.
  - exists []. by rewrite app_nil_r.
  - simpl. unfold mbind, M_bind.
    destruct (create_tasks_for_recorded bw 0 (background_jobs bw) calls)
      as (calls1 & Hrun1 & Hset1 & Htasks1).
    rewrite Hrun1.
    destruct (IH (calls ++ calls1)) as (calls2 & Hrun2 & Hset2 & Htasks2).
    rewrite Hrun2. exists (calls1 ++ calls2).
    split; [by rewrite <- !(assoc_L (++))|]. split.
    + unfold webhooks_set in *. by rewrite omap_app, Hset1, Hset2.
    + unfold tasks_created in *. by rewrite omap_app, Htasks1, Htasks2.
Qed.

Lemma startup_calls_recorded (bot_runners : list BotRunner) (base_url : string) :
  ∃ r calls1 calls2,
    startup_calls webhook_route bot name background_jobs bot_runners base_url
    = ([Info r] ++ calls1) ++ calls2
    ∧ webhooks_set calls1
      = (λ item, (bot item.2, base_url +:+ "/" +:+ item.1 +:+ "/"))
          <$> bot_runner_by_route_items bot_runners
    ∧ tasks_created calls1 = []
    ∧ webhooks_set calls2 = []
    ∧ tasks_created calls2 = concat (background_jobs <$> bot_runners).
Proof.
  unfold startup_calls, startup, setup_webhooks.
  unfold mbind at 1 2, M_bind at 1 2, record at 1, modify. simpl.
  set (r := RunningBots _).
  destruct (setup_webhooks_for_recorded base_url
              (bot_runner_by_route_items bot_runners) [Info r])
    as (calls1 & Hrun1 & Hset1 & Htasks1).
  rewrite Hrun1.
  destruct (run_background_tasks_recorded bot_runners ([Info r] ++ calls1))
    as (calls2 & Hrun2 & Hset2 & Htasks2).
  rewrite Hrun2. by exists r, calls1, calls2.
Qed.

(** X13.  When no call fails, the startup of the server sets one webhook for
    each route that [handle_update] serves, for the bot of the runner that
    serves it, at the URL made of the base URL, a slash, the route and a
    slash: a runner whose route a later runner of the list also has gets no
    webhook. *)
Theorem startup_sets_webhooks_of_served_routes (bot_runners : list BotRunner)
    (base_url : string) :
  let calls :=
    startup_calls webhook_route bot name background_jobs bot_runners base_url in
  (∀ b url,
     (b, url) ∈ webhooks_set calls
     ↔ ∃ route br, bot_runner_by_route bot_runners !! route = Some br
                   ∧ b = bot br ∧ url = base_url +:+ "/" +:+ route +:+ "/")
  ∧ length (webhooks_set calls) = size (bot_runner_by_route bot_runners).
Proof.
  intros calls. subst calls.
  destruct (startup_calls_recorded bot_runners base_url)
    as (r & calls1 & calls2 & -> & Hset1 & _ & Hset2 & _).
  unfold webhooks_set in *. rewrite !omap_app, Hset1, Hset2. simpl.
  rewrite app_nil_r.
  destruct (foldl_setitem webhook_route bot_runners [] ∅) as [Hnodup Hget].
  { apply NoDup_nil_2. }
  { intros route. simpl. by rewrite lookup_empty. }
  fold (bot_runner_by_route_items bot_runners) in Hnodup, Hget.
  fold (bot_runner_by_route bot_runners) in Hget.
  split.
  - intros b url. rewrite list_elem_of_fmap. split.
    + intros ([route br] & [= -> ->] & Hin).
      exists route, br. split; [|done].
      rewrite <- Hget. by apply get_Some_elem_of.
    + intros (route & br & Hserved & -> & ->).
      exists (route, br). split; [done|].
      apply get_Some_elem_of; [done|]. by rewrite Hget.
  - rewrite length_fmap.
    rewrite <- (map_size_list_to_map (M := gmap string) _ Hnodup). f_equal.
    apply map_eq. intros route. rewrite <- Hget.
    destruct (PyDict.get route (bot_runner_by_route_items bot_runners)) as [br|] eqn:E.
    + apply elem_of_list_to_map; [done|]. by apply get_Some_elem_of.
    + apply not_elem_of_list_to_map. intros Hin.
      apply list_elem_of_fmap in Hin as ([route' br] & -> & Hin).
      apply get_Some_elem_of in Hin; [|done]. simpl in E. congruence.
Qed.

(** X14.  When no call fails, the startup of the server creates a task for
    every background job of every runner of the list, in the order of the
    list, whether or not the runner's route is served by it. *)
Theorem startup_creates_all_background_tasks (bot_runners : list BotRunner)
    (base_url : string) :
  tasks_created
    (startup_calls webhook_route bot name background_jobs bot_runners base_url)
  = concat (background_jobs <$> bot_runners).
Proof.
  destruct (startup_calls_recorded bot_runners base_url)
    as (r & calls1 & calls2 & -> & _ & Htasks1 & _ & Htasks2).
  unfold tasks_created in *. by rewrite !omap_app, Htasks1, Htasks2.
Qed.

End startup_calls.

End WebhookStartupProperties.

(** ** Properties of telebot/api.py *)

Module ApiProperties.
Import Api.

(** *** File names *)

Lemma rfind_None_get (c : Ascii.ascii) (p : string) :
  rfind c p = None → ∀ i, String.get i p ≠ Some c.
Proof.
  induction p as [|a rest IH]; simpl; intros Hnone i; [by destruct i|].
  destruct (rfind c rest) as [j|]; [done|].
  destruct (Ascii.eqb a c) eqn:Heq; [done|].
  destruct i as [|i]; [|by apply IH].
  intros [= ->]. by rewrite Ascii.eqb_refl in Heq.
Qed.

Lemma basename_cons (a : Ascii.ascii) (rest : string) :
  basename (String a rest)
  = match rfind "/"%char rest with
    | Some _ => basename rest
    | None => if Ascii.eqb a "/"%char then rest else String a rest
    end.
Proof.
  unfold basename. simpl. destruct (rfind "/"%char rest) as [i|]; [done|].
  by destruct (Ascii.eqb a "/"%char).
Qed.

Lemma basename_split (p : string) :
  ∃ dir, p = dir +:+ basename p
         ∧ (dir = "" ∨ ∃ d, dir = d +:+ "/")
         ∧ rfind "/"%char (basename p) = None.
Proof.
  induction p as [|a rest (dir & Hsplit & Hdir & Hnone)].
  - exists "". split; [done|]. split; [by left|done].
  - rewrite basename_cons. destruct (rfind "/"%char rest) as [i|] eqn:Hrest.
    + exists (String a dir). split.
      { change (String a dir +:+ basename rest)
          with (String a (dir +:+ basename rest)). by f_equal. }
      split; [|done].
      right. destruct Hdir as [->|[d ->]].
      * change ("" +:+ basename rest) with (basename rest) in Hsplit.
        rewrite <- Hsplit in Hnone. congruence.
      * by exists (String a d).
    + destruct (Ascii.eqb a "/"%char) eqn:Heq.
      * apply Ascii.eqb_eq in Heq as ->.
        exists "/". split; [done|]. split; [right; by exists ""|done].
      * exists "". split; [done|]. split; [by left|].
        simpl. by rewrite Hrest, Heq.
Qed.

(** X15.  When [extract_filename] gives a name, the object is a BytesIO
    whose [name] attribute is a str that is not empty, does not start with
    ["<"] and does not end with [">"]; what it gives is the part of that name
    after its last slash, which holds no slash. *)
Theorem extract_filename_is_slash_free_tail (obj : FileObject) (filename : string) :
  extract_filename obj = Some filename →
  ∃ name content dir,
    obj = BytesIO (Some (NameStr name)) content
    ∧ name ≠ ""
    ∧ first_char name ≠ Some "<"%char
    ∧ last_char name ≠ Some ">"%char
    ∧ name = dir +:+ filename
    ∧ (dir = "" ∨ ∃ d, dir = d +:+ "/")
    ∧ ∀ i, String.get i filename ≠ Some "/"%char.
Proof.
  unfold extract_filename. destruct obj as [[[name|truth]|] content| | |]; try done.
  simpl. destruct (bool_decide (name ≠ "")) eqn:H1; [|done].
  destruct (bool_decide (first_char name ≠ Some "<"%char)) eqn:H2; [|done].
  destruct (bool_decide (last_char name ≠ Some ">"%char)) eqn:H3; [|done].
  simpl. intros [= <-].
  apply bool_decide_eq_true in H1, H2, H3.
  destruct (basename_split name) as (dir & Hsplit & Hdir & Hnone).
  exists name, content, dir. repeat split; try done.
  by apply rfind_None_get.
Qed.

(** *** Form data *)

Lemma extract_filename_no_slash (obj : FileObject) (filename : string) :
  extract_filename obj = Some filename →
  ∀ i, String.get i filename ≠ Some "/"%char.
Proof.
  unfold extract_filename. destruct (getattr_name obj) as [[name|truth]|]; try done.
  destruct (_ && _); [|done]. intros [= <-].
  destruct (basename_split name) as (dir & _ & _ & Hnone).
  by apply rfind_None_get.
Qed.

Lemma files_fields_ok (files : PyDict.dict FileValue) :
  (∀ key len, (key, BadTuple len) ∉ files) →
  ∃ fields,
    files_fields files = inr fields
    ∧ field_name <$> fields = files.*1
    ∧ ∀ key file_object,
        (key, Plain file_object) ∈ files →
        ∃ filename,
          FileField key file_object filename ∈ fields
          ∧ (key ≠ "" → filename ≠ "")
          ∧ (filename = key ∨ ∀ i, String.get i filename ≠ Some "/"%char).
Proof.
  induction files as [|[key f] files IH]; intros Hgood.
  - exists []. split; [done|]. split; [done|].
    intros key fo Hin. by apply elem_of_nil in Hin.
  - destruct IH as (fields & Hrun & Hnames & Hplain).
    { intros k len Hin. apply (Hgood k len). by right. }
    simpl. rewrite Hrun. destruct f as [filename fo|len|fo].
    + eexists. split; [done|]. split; [by rewrite !fmap_cons, Hnames|].
      intros k fo' Hin. apply elem_of_cons in Hin as [[=]|Hin].
      destruct (Hplain k fo' Hin) as (fn & Hfn & Hprops).
      exists fn. split; [by right|done].
    + exfalso. apply (Hgood key len). left.
    + eexists. split; [done|]. split; [by rewrite !fmap_cons, Hnames|].
      intros k fo' Hin. apply elem_of_cons in Hin as [[= -> ->]|Hin].
      * eexists. split; [left|]. unfold str_or.
        destruct (extract_filename fo) as [fn|] eqn:Hname; [|by split; [|left]].
        destruct (bool_decide (fn = "")) eqn:Hempty; [by split; [|left]|].
        apply bool_decide_eq_false in Hempty. split; [done|].
        right. by apply extract_filename_no_slash with fo.
      * destruct (Hplain k fo' Hin) as (fn & Hfn & Hprops).
        exists fn. split; [by right|done].
Qed.

(** X16.  When no value of [files] is a tuple of a length other than 2,
    [to_form_data] returns the form with one field for each item of [params],
    in their order, followed by one field for each item of [files], in their
    order; the value of a parameter is sent as [str] gives it.  A file object
    given without a file name is sent under a file name that is not empty
    (the key of the field being not empty) and that is the key itself or
    holds no slash. *)
Theorem to_form_data_fields (params : option (PyDict.dict ParamValue))
    (files : option (PyDict.dict FileValue)) :
  (∀ key len, (key, BadTuple len) ∉ default [] files) →
  ∃ fields,
    to_form_data params files = inr fields
    ∧ field_name <$> fields = (default [] params).*1 ++ (default [] files).*1
    ∧ (∀ key value, (key, value) ∈ default [] params →
                    TextField key (str value) ∈ fields)
    ∧ ∀ key file_object,
        (key, Plain file_object) ∈ default [] files →
        ∃ filename,
          FileField key file_object filename ∈ fields
          ∧ (key ≠ "" → filename ≠ "")
          ∧ (filename = key ∨ ∀ i, String.get i filename ≠ Some "/"%char).
Proof.
  intros Hgood.
  destruct (files_fields_ok _ Hgood) as (ffields & Hrun & Hnames & Hplain).
  unfold to_form_data. rewrite Hrun. eexists. split; [done|]. split; [|split].
  - rewrite fmap_app, Hnames. f_equal. unfold params_fields.
    rewrite <- list_fmap_compose. by apply list_fmap_ext.
  - intros key value Hin. apply elem_of_app. left. unfold params_fields.
    apply list_elem_of_fmap. by exists (key, value).
  - intros key fo Hin. destruct (Hplain key fo Hin) as (fn & Hfn & Hprops).
    exists fn. split; [|done]. apply elem_of_app. by right.
Qed.

(** X17.  When a value of [files] is a tuple of a length other than 2,
    [to_form_data] raises ValueError, whatever the other items are. *)
Theorem to_form_data_bad_tuple (params : option (PyDict.dict ParamValue))
    (files : option (PyDict.dict FileValue)) (key : string) (len : nat) :
  (key, BadTuple len) ∈ default [] files →
  to_form_data params files = inl (OtherException "ValueError").
Proof.
  intros Hin. unfold to_form_data.
  assert (H : files_fields (default [] files) = inl (OtherException "ValueError")).
  { induction (default [] files) as [|[k f] l IH]; [by apply elem_of_nil in Hin|].
    simpl. apply elem_of_cons in Hin as [[= <- <-]|Hin]; [done|].
    rewrite (IH Hin). by destruct f. }
  by rewrite H.
Qed.

End ApiProperties.

(** ** Sessions *)

Module ApiSessionProperties.
Import Api ApiState.

Ltac unfold_M := cbv [mbind M_bind mret M_ret modify gets raise] in *.

Lemma init_session_usable (w : World) :
  sessions_below_next w →
  let w' := snd (init_session w) in
  (init_session;; gets session) w = (Normal (Some (next_session w)), w')
  ∧ session w' = Some (next_session w)
  ∧ usable w' (next_session w)
  ∧ sessions w !! next_session w = None
  ∧ (∀ i cs, sessions w !! i = Some cs → sessions w' !! i = Some cs)
  ∧ sessions_below_next w'
  ∧ sent w' = sent w ∧ unreleased w' = unreleased w ∧ log w' = log w.
Proof.
  intros [Hbelow Hmgr] w'. subst w'. unfold init_session. unfold_M. simpl.
  assert (Hfresh : sessions w !! next_session w = None).
  { destruct (sessions w !! next_session w) eqn:E; [|done].
    assert (next_session w < next_session w) by (apply Hbelow; by eexists). exfalso. lia. }
  split; [reflexivity|]. split; [reflexivity|]. split.
  { eexists. split; [apply lookup_insert_eq|done]. }
  split; [exact Hfresh|]. split.
  { intros i cs Hi. rewrite lookup_insert_ne; [done|]. congruence. }
  split; [|done]. split.
  - intros i Hi. simpl in *.
    destruct (decide (i = next_session w)) as [->|Hne]; [lia|].
    rewrite lookup_insert_ne in Hi by done. apply Hbelow in Hi. lia.
  - intros s [= <-]. simpl. rewrite lookup_insert_eq. by eexists.
Qed.

Lemma get_session_usable_same (w : World) (s : nat) :
  session w = Some s → usable w s → get_session w = (Normal (Some s), w).
Proof.
  intros Hs (cs & Hcs & Hclosed & Hloop). unfold get_session.
  by rewrite Hs, Hcs, Hclosed, Hloop.
Qed.

(** X18.  In a process whose manager holds no session or a session that was
    made, [get_session] gives a session that is open and whose loop is
    running, and keeps it in the manager.  A session of the manager that is
    already so is given as it is and nothing changes; otherwise a new session
    is made, and the sessions made before, the replaced one included, are
    left as they are: none is closed.  Asking again gives the same session
    and changes nothing. *)
Theorem get_session_gives_usable_session (w : World) :
  sessions_below_next w →
  ∃ s w',
    get_session w = (Normal (Some s), w')
    ∧ session w' = Some s
    ∧ usable w' s
    ∧ (∀ s0, session w = Some s0 → usable w s0 → s = s0 ∧ w' = w)
    ∧ (∀ i cs, sessions w !! i = Some cs → sessions w' !! i = Some cs)
    ∧ sessions_below_next w'
    ∧ get_session w' = (Normal (Some s), w').
Proof.
  intros Hwf.
  destruct (init_session_usable w Hwf)
    as (Hinit & Hmgr' & Husable' & Hfresh & Hkeep & Hwf' & _).
  destruct (session w) as [s0|] eqn:Hs0.
  - destruct Hwf as [Hbelow Hmgr]. destruct (Hmgr s0 Hs0) as [cs Hcs].
    destruct (closed cs || negb (loop_running cs)) eqn:Hbad.
    + exists (next_session w), (snd (init_session w)).
      split; [unfold get_session; by rewrite Hs0, Hcs, Hbad|].
      split; [done|]. split; [done|]. split.
      { intros s1 [= <-] (cs' & Hcs' & Hc & Hl).
        rewrite Hcs in Hcs'. injection Hcs' as <-. by rewrite Hc, Hl in Hbad. }
      split; [done|]. split; [done|].
      by apply get_session_usable_same.
    + apply orb_false_iff in Hbad as [Hc Hl]. apply negb_false_iff in Hl.
      assert (Hus : usable w s0) by (by exists cs).
      exists s0, w. split; [by apply get_session_usable_same|].
      split; [done|]. split; [done|]. split; [by intros s1 [= <-] _|].
      split; [done|]. split; [by split|].
      by apply get_session_usable_same.
  - exists (next_session w), (snd (init_session w)).
    split; [unfold get_session; by rewrite Hs0|].
    split; [done|]. split; [done|]. split; [done|]. split; [done|].
    split; [done|]. by apply get_session_usable_same.
Qed.

(** X19.  [close_session] closes the session of the manager and leaves it in
    the manager; closing again changes nothing.  The next [get_session] does
    not give the closed session: it makes a new one, which is open, and the
    closed one stays closed. *)
Theorem close_session_then_get_session (w : World) (s : nat) :
  sessions_below_next w →
  session w = Some s →
  ∃ w1 s' w2,
    close_session w = (Normal tt, w1)
    ∧ session w1 = Some s
    ∧ (∃ cs, sessions w1 !! s = Some cs ∧ closed cs = true)
    ∧ close_session w1 = (Normal tt, w1)
    ∧ get_session w1 = (Normal (Some s'), w2)
    ∧ s' ≠ s
    ∧ usable w2 s'
    ∧ (∃ cs, sessions w2 !! s = Some cs ∧ closed cs = true).
Proof.
  intros Hwf Hs. destruct Hwf as [Hbelow Hmgr].
  destruct (Hmgr s Hs) as [cs Hcs].
  set (w1 := mkWorld (alter (λ cs, mkSession true (loop_running cs) (limit cs))
                        s (sessions w))
               (session w) (next_session w) (sent w) (unreleased w) (log w)).
  assert (Hclose : close_session w = (Normal tt, w1)).
  { unfold close_session. by rewrite Hs. }
  assert (Hs1 : session w1 = Some s) by done.
  assert (Hcs1 : sessions w1 !! s = Some (mkSession true (loop_running cs) (limit cs))).
  { simpl. by rewrite lookup_alter_eq, Hcs. }
  assert (Hwf1 : sessions_below_next w1).
  { split.
    - intros i Hi. simpl in *. apply Hbelow.
      destruct (decide (i = s)) as [->|Hne]; [by eexists|].
      by rewrite lookup_alter_ne in Hi.
    - intros s1 Hs1'. rewrite Hs1 in Hs1'. injection Hs1' as <-. by eexists. }
  destruct (init_session_usable w1 Hwf1)
    as (Hinit & Hmgr' & Husable' & Hfresh & Hkeep & Hwf' & _).
  exists w1, (next_session w1), (snd (init_session w1)).
  split; [done|]. split; [done|]. split; [by eexists|]. split.
  { unfold close_session. rewrite Hs1. unfold ClientSession_close, modify.
    f_equal. unfold w1. simpl. f_equal.
    apply map_eq. intros i. destruct (decide (i = s)) as [->|Hne].
    - rewrite !lookup_alter_eq, Hcs. done.
    - by rewrite !lookup_alter_ne. }
  split; [unfold get_session; by rewrite Hs1, Hcs1|].
  split; [intros Heq; rewrite Heq, Hcs1 in Hfresh; done|].
  split; [done|]. eexists. split; [by apply Hkeep|done].
Qed.
End ApiSessionProperties.

(** ** Requests *)

Module ApiRequestProperties.
Import Api ApiState ApiReplies.

Ltac unfold_M := cbv [mbind M_bind mret M_ret modify gets raise] in *.

Section request.

Variable transport : nat → Reply.
Variable debug_enabled : bool.
Variable describe :
  string → string → string → option (PyDict.dict ParamValue) →
  option (PyDict.dict FileValue) → option float → exn + string.

Local Abbreviation ClientSession_request := (ClientSession_request transport).
Local Abbreviation attempt := (attempt transport).
Local Abbreviation _request := (_request transport debug_enabled describe).

(** *** Checking a response *)

Lemma parse_logs (raw : json) (w : World) :
  ∃ r records,
    parse raw w
    = (Normal r, mkWorld (sessions w) (session w) (next_session w) (sent w)
                   (unreleased w) (log w ++ records))
    ∧ (length records ≤ 1)%nat.
Proof.
  destruct w as [ss m n st u l]. unfold parse, logger. unfold_M.
  destruct raw as [| | | | | |d];
    try (exists None, []; simpl; rewrite app_nil_r; split; [done|lia]).
  destruct (is_None_or_int (dict_get "migrate_to_chat_id" d)); simpl;
    [|by eexists _, [_]].
  destruct (is_None_or_int (dict_get "retry_after" d)); simpl;
    [|by eexists _, [_]].
  eexists _, []. simpl. rewrite app_nil_r. split; [done|lia].
Qed.

Lemma ApiHTTPException_new_logs (response_json : json) (w : World) :
  ∃ records,
    ApiHTTPException_new response_json w
    = (Normal ApiHTTPException,
       mkWorld (sessions w) (session w) (next_session w) (sent w)
         (unreleased w) (log w ++ records))
    ∧ (length records ≤ 1)%nat.
Proof.
  unfold ApiHTTPException_new.
  destruct response_json as [| | | | | |d];
    try (exists []; unfold_M; destruct w; simpl; rewrite app_nil_r;
         split; [done|lia]).
  destruct (parse_logs (dict_get "parameters" d) w)
    as (r & records & Hparse & Hlen).
  exists records. unfold mbind, M_bind. by rewrite Hparse.
Qed.

(** X20.  [_check_response] returns only a dict whose ["ok"] is True, read
    from a response whose body loaded; the process is then as it was.  The
    status of the response is not looked at: with any other status the same
    response is returned as well. *)
Theorem check_response_accepts_ok_dicts_only (response : Response)
    (w w' : World) (result_json : json) :
  _check_response response w = (Normal result_json, w') →
  w' = w
  ∧ text_result response = None
  ∧ json_result response = Normal result_json
  ∧ (∃ d, result_json = JDict d ∧ d !! "ok" = Some (JBool true))
  ∧ ∀ status',
      _check_response
        (mkResponse status' (text_result response) (json_result response)) w
      = (Normal result_json, w).
Proof.
  unfold _check_response. cbn [text_result json_result].
  destruct (text_result response) as [e|]; [done|].
  destruct (json_result response) as [j|e]; [|by destruct (is_Exception e)].
  destruct (not_ok j) eqn:Hok.
  - destruct (ApiHTTPException_new_logs j w) as (records & Hnew & _).
    unfold mbind, M_bind, raise. by rewrite Hnew.
  - intros [= -> ->]. split; [done|]. split; [done|]. split; [done|].
    split; [|done].
    unfold not_ok in Hok. destruct result_json as [| | | | | |d]; try done.
    exists d. split; [done|]. unfold dict_get in Hok.
    destruct (d !! "ok") as [[|[|]| | | | |]|]; simpl in Hok; done.
Qed.

Lemma check_response_ok (status : Z) (d : gmap string json) (w : World) :
  d !! "ok" = Some (JBool true) →
  _check_response (mkResponse status None (Normal (JDict d))) w
  = (Normal (JDict d), w)
  ∧ truth (JDict d) = true.
Proof.
  intros Hok. split.
  - unfold _check_response, not_ok, dict_get. cbn [text_result json_result].
    by rewrite Hok.
  - apply bool_decide_eq_true. intros ->. by rewrite lookup_empty in Hok.
Qed.

Lemma check_response_not_ok (status : Z) (j : json) (w : World) :
  not_ok j = true →
  ∃ records,
    _check_response (mkResponse status None (Normal j)) w
    = (Raise ApiHTTPException,
       mkWorld (sessions w) (session w) (next_session w) (sent w)
         (unreleased w) (log w ++ records))
    ∧ (length records ≤ 1)%nat.
Proof.
  intros Hnot. unfold _check_response. cbn [text_result json_result].
  rewrite Hnot.
  destruct (ApiHTTPException_new_logs j w) as (records & Hnew & Hlen).
  exists records. unfold mbind, M_bind, raise. by rewrite Hnew.
Qed.

Lemma check_response_only_logs (response : Response) (w w' : World)
    (res : outcome json) :
  _check_response response w = (res, w') →
  ∃ records,
    w' = mkWorld (sessions w) (session w) (next_session w) (sent w)
           (unreleased w) (log w ++ records)
    ∧ (length records ≤ 1)%nat.
Proof.
  unfold _check_response.
  assert (Hsame : w = mkWorld (sessions w) (session w) (next_session w) (sent w)
                        (unreleased w) (log w ++ [])).
  { rewrite app_nil_r. by destruct w. }
  destruct (text_result response) as [e|].
  { intros [= <- <-]. exists []. split; [done|simpl; lia]. }
  destruct (json_result response) as [j|e].
  - destruct (not_ok j).
    + destruct (ApiHTTPException_new_logs j w) as (records & Hnew & Hlen).
      unfold mbind, M_bind, raise. rewrite Hnew. intros [= <- <-].
      by exists records.
    + intros [= <- <-]. exists []. split; [done|simpl; lia].
  - destruct (is_Exception e); intros [= <- <-]; exists [];
      (split; [done|simpl; lia]).
Qed.

Lemma check_response_json_raises (status : Z) (e : exn) (w : World) :
  _check_response (mkResponse status None (Raise e)) w
  = (Raise (if is_Exception e then ApiInvalidJSONException else e), w).
Proof.
  unfold _check_response. cbn [text_result json_result].
  by destruct (is_Exception e).
Qed.

Lemma check_response_text_raises (status : Z) (e : exn) (jr : outcome json)
    (w : World) :
  _check_response (mkResponse status (Some e) jr) w = (Raise e, w).
Proof. reflexivity. Qed.

(** *** One attempt *)

Section one_attempt.

Variable s : nat.
Variables token route method : string.
Variable params : option (PyDict.dict ParamValue).
Variable files : option (PyDict.dict FileValue).
Variable request_timeout : option float.
Variable data : list Field.
Hypothesis Hdata : to_form_data params files = inr data.

Local Abbreviation request :=
  (request_of s token route method data request_timeout).
Local Abbreviation try :=
  (attempt (Some s) token route method params files request_timeout).

Local Abbreviation open_in := (open_session s).
Local Abbreviation with_sent :=
  (λ w, mkWorld (sessions w) (session w) (next_session w) (sent w ++ [request])
          (unreleased w) (log w)).

Lemma attempt_unfold (w : World) (cs : ClientSession) :
  sessions w !! s = Some cs → closed cs = false →
  try w
  = match transport (length (sent w)) with
    | ConnectionFails e => (Raise e, with_sent w)
    | Responds response =>
        let w1 := mkWorld (sessions w) (session w) (next_session w)
                    (sent w ++ [request]) (S (unreleased w)) (log w) in
        match _check_response response w1 with
        | (Normal json_result, w2) =>
            if truth json_result then
              match getitem_result json_result w2 with
              | (Normal v, w3) =>
                  (Normal (Some v),
                   mkWorld (sessions w3) (session w3) (next_session w3)
                     (sent w3) (Nat.pred (unreleased w3)) (log w3))
              | (Raise e, w3) =>
                  (Raise e,
                   mkWorld (sessions w3) (session w3) (next_session w3)
                     (sent w3) (Nat.pred (unreleased w3)) (log w3))
              end
            else
              (Normal None,
               mkWorld (sessions w2) (session w2) (next_session w2)
                 (sent w2) (Nat.pred (unreleased w2)) (log w2))
        | (Raise e, w2) =>
            (Raise e,
             mkWorld (sessions w2) (session w2) (next_session w2)
               (sent w2) (Nat.pred (unreleased w2)) (log w2))
        end
    end.
Proof.
  intros Hcs Hopen. unfold Api.attempt. rewrite Hdata.
  unfold mbind at 1, M_bind at 1, async_with_as, Api.ClientSession_request.
  rewrite Hcs, Hopen.
  destruct (transport (length (sent w))) as [e|response]; [reflexivity|].
  cbv zeta. unfold mbind, M_bind.
  destruct (_check_response response _) as [[j|e] w2]; [|reflexivity].
  destruct (truth j); [|reflexivity].
  by destruct (getitem_result j w2) as [[v|e] w3].
Qed.

Lemma attempt_retried (w : World) (e : exn) :
  open_in w → retried (transport (length (sent w))) e →
  try w = (Raise e, with_sent w).
Proof.
  intros (cs & Hcs & Hopen) Hretried.
  rewrite (attempt_unfold w cs Hcs Hopen).
  destruct Hretried as [e He Hapi|st e jr He Hapi|st d Hok Hres];
    cbv beta iota zeta.
  - reflexivity.
  - by rewrite check_response_text_raises.
  - destruct (check_response_ok st d
      (mkWorld (sessions w) (session w) (next_session w)
         (sent w ++ [request]) (S (unreleased w)) (log w)) Hok) as [-> ->].
    unfold getitem_result. rewrite Hres. reflexivity.
Qed.

Lemma attempt_final (w : World) (e : exn) :
  open_in w → final_failure (transport (length (sent w))) e →
  ∃ records,
    try w = (Raise e,
             mkWorld (sessions w) (session w) (next_session w)
               (sent w ++ [request]) (unreleased w) (log w ++ records))
    ∧ (length records ≤ 1)%nat.
Proof.
  intros (cs & Hcs & Hopen) Hfinal.
  rewrite (attempt_unfold w cs Hcs Hopen).
  destruct Hfinal as [e He|st e jr He|st e He|st e He|st j Hnot];
    cbv beta iota zeta.
  - exists []. rewrite app_nil_r. split; [done|simpl; lia].
  - rewrite check_response_text_raises. exists []. rewrite app_nil_r.
    split; [done|simpl; lia].
  - rewrite check_response_json_raises, He. exists []. rewrite app_nil_r.
    split; [done|simpl; lia].
  - rewrite check_response_json_raises, He. exists []. rewrite app_nil_r.
    split; [done|simpl; lia].
  - match goal with
    | |- context [_check_response _ ?w0] =>
        destruct (check_response_not_ok st j w0 Hnot) as (records & -> & Hlen)
    end.
    by exists records.
Qed.

Lemma attempt_success (w : World) (status : Z) (d : gmap string json) (v : json) :
  open_in w →
  transport (length (sent w))
  = Responds (mkResponse status None (Normal (JDict d))) →
  d !! "ok" = Some (JBool true) → d !! "result" = Some v →
  try w = (Normal (Some v), with_sent w).
Proof.
  intros (cs & Hcs & Hopen) Hreply Hok Hres.
  rewrite (attempt_unfold w cs Hcs Hopen), Hreply. cbv beta iota zeta.
  destruct (check_response_ok status d
      (mkWorld (sessions w) (session w) (next_session w)
         (sent w ++ [request]) (S (unreleased w)) (log w)) Hok) as [-> ->].
  unfold getitem_result. rewrite Hres. reflexivity.
Qed.

Lemma retried_classes (reply : Reply) (e : exn) :
  retried reply e → is_Exception e = true ∧ is_ApiException e = false.
Proof. by intros [e0 He Hapi|st e0 jr He Hapi|st d Hok Hres]. Qed.

Lemma final_failure_classes (reply : Reply) (e : exn) :
  final_failure reply e → is_ApiException e = true ∨ is_Exception e = false.
Proof.
  intros [e0 [He|He]|st e0 jr [He|He]|st e0 He|st e0 He|st j Hnot]; auto.
Qed.

Lemma retrying_records_cons (n : nat) (description : string) (e : exn)
    (es : list exn) :
  retrying_records n description (e :: es)
  = Retrying (n + 1) MAX_RETRIES description e
    :: retrying_records (S n) description es.
Proof.
  unfold retrying_records. rewrite imap_cons. f_equal.
  - by rewrite Nat.add_0_r.
  - apply imap_ext. intros k e' _. simpl. f_equal. lia.
Qed.

(** Attempts that fail and are tried again. *)
Lemma retry_retried (left n : nat) (last_exception : option exn)
    (description : string) (es : list exn) (w : World) :
  (length es ≤ left)%nat →
  open_in w →
  (∀ k e, es !! k = Some e → retried (transport (length (sent w) + k)) e) →
  retry left n last_exception description try w
  = retry (left - length es) (n + length es)
      (match last es with Some e => Some e | None => last_exception end)
      description try
      (after_sending request (length es) (retrying_records n description es) w)
  ∧ open_in (after_sending request (length es)
               (retrying_records n description es) w).
Proof.
  revert left n last_exception w.
  induction es as [|e es IH]; intros left n last_exception w Hlen Hopen Hes.
  - simpl. rewrite Nat.sub_0_r, Nat.add_0_r.
    unfold after_sending. simpl. rewrite !app_nil_r.
    by destruct w.
  - destruct left as [|left]; [simpl in Hlen; lia|].
    assert (Hfirst : retried (transport (length (sent w))) e).
    { rewrite <- (Nat.add_0_r (length (sent w))). by apply Hes. }
    destruct (retried_classes _ _ Hfirst) as [He Hapi].
    cbn [retry]. rewrite (attempt_retried w e Hopen Hfirst), Hapi, He.
    unfold mbind, M_bind, logger, modify.
    cbn [sessions session next_session sent unreleased log].
    set (w1 := mkWorld _ _ _ _ _ _).
    destruct (IH left (S n) (Some e) w1) as [Hrun Hopen1].
    { simpl in Hlen. lia. }
    { exact Hopen. }
    { intros k e' Hk. unfold w1. cbn [sent]. rewrite length_app. simpl.
      replace (length (sent w) + 1 + k) with (length (sent w) + S k) by lia.
      by apply Hes. }
    assert (Hsame : after_sending request (length es)
                      (retrying_records (S n) description es) w1
                    = after_sending request (length (e :: es))
                        (retrying_records n description (e :: es)) w).
    { unfold after_sending, w1. cbn [sessions session next_session sent unreleased log].
      rewrite retrying_records_cons. simpl.
      by rewrite <- !(assoc_L (++)). }
    rewrite Hrun, Hsame. split; [|by rewrite <- Hsame].
    simpl length. replace (S left - S (length es)) with (left - length es) by lia.
    replace (n + S (length es)) with (S n + length es) by lia.
    f_equal. rewrite last_cons. by destruct (last es).
Qed.

End one_attempt.

(** *** The whole request *)

Section whole_request.

Variables token route method : string.
Variable params : option (PyDict.dict ParamValue).
Variable files : option (PyDict.dict FileValue).
Variable request_timeout : option float.

(** The description of the request, when making it does not raise. *)
Local Abbreviation description :=
  (if debug_enabled
   then describe token method route params files request_timeout
   else inr "<request description not available>").

Lemma get_session_for_request (w : World) :
  sessions_below_next w →
  ∃ s w0,
    get_session w = (Normal (Some s), w0)
    ∧ open_session s w0
    ∧ sent w0 = sent w ∧ unreleased w0 = unreleased w ∧ log w0 = log w.
Proof.
  intros Hwf.
  destruct (ApiSessionProperties.init_session_usable w Hwf)
    as (Hinit & _ & (cs' & Hcs' & Hc' & _) & _ & _ & _ & Hsent & Hunrel & Hlog).
  unfold get_session. destruct (session w) as [s0|] eqn:Hs0.
  - destruct Hwf as [_ Hmgr]. destruct (Hmgr s0 Hs0) as [cs Hcs]. rewrite Hcs.
    destruct (closed cs || negb (loop_running cs)) eqn:Hbad.
    + exists (next_session w), (snd (init_session w)).
      split; [done|]. split; [by exists cs'|done].
    + apply orb_false_iff in Hbad as [Hc _].
      exists s0, w. split; [done|]. split; [by exists cs|done].
  - exists (next_session w), (snd (init_session w)).
    split; [done|]. split; [by exists cs'|done].
Qed.

Section described.

Variable request_description : string.
Hypothesis Hdescribed : description = inr request_description.

Lemma request_unfold (w w0 : World) (session : option nat) :
  get_session w = (Normal session, w0) →
  _request token route method params files request_timeout w
  = retry MAX_RETRIES 0 None request_description
      (attempt session token route method params files request_timeout)
      (after_sending (request_of 0 "" "" "" [] None) 0
         (debug_records debug_enabled request_description) w0).
Proof.
  intros Hget. unfold Api._request. unfold mbind at 1, M_bind at 1.
  rewrite Hget, Hdescribed. unfold debug_records, after_sending.
  unfold mbind, M_bind. destruct debug_enabled; simpl.
  - unfold logger, modify. by rewrite app_nil_r.
  - unfold mret, M_ret. rewrite !app_nil_r. by destruct w0.
Qed.

(** The attempts that fail and are tried again, followed from the start of
    [_request]. *)
Lemma request_retried (w : World) (data : list Field) (es : list exn) :
  sessions_below_next w →
  to_form_data params files = inr data →
  (length es ≤ MAX_RETRIES)%nat →
  (∀ k e, es !! k = Some e → retried (transport (length (sent w) + k)) e) →
  ∃ s w1,
    _request token route method params files request_timeout w
    = retry (MAX_RETRIES - length es) (length es) (last es) request_description
        (attempt (Some s) token route method params files request_timeout) w1
    ∧ open_session s w1
    ∧ sent w1 = sent w ++ replicate (length es)
                  (request_of s token route method data request_timeout)
    ∧ unreleased w1 = unreleased w
    ∧ log w1 = log w ++ debug_records debug_enabled request_description
               ++ retrying_records 0 request_description es.
Proof.
  intros Hwf Hdata Hlen Hes.
  destruct (get_session_for_request w Hwf)
    as (s & w0 & Hget & Hopen & Hsent & Hunrel & Hlog).
  rewrite (request_unfold w w0 _ Hget).
  set (w0' := after_sending _ 0 _ w0).
  assert (Hopen' : open_session s w0') by exact Hopen.
  assert (Hsent' : sent w0' = sent w).
  { unfold w0', after_sending. simpl. by rewrite app_nil_r. }
  destruct (retry_retried s token route method params files request_timeout data
              Hdata MAX_RETRIES 0 None request_description es w0' Hlen Hopen')
    as [Hrun Hopen1].
  { intros k e Hk. rewrite Hsent'. by apply Hes. }
  exists s. eexists. split; [|split; [exact Hopen1|]].
  - rewrite Hrun. simpl. by destruct (last es).
  - unfold after_sending, w0'. simpl.
    rewrite app_nil_r, Hsent, Hunrel, Hlog. split; [done|]. split; [done|].
    by rewrite <- (assoc_L (++)).
Qed.

(** X22.  The attempts before the last each fail with an exception that is
    tried again, fewer than [MAX_RETRIES] of them, and the next reply is a
    dict with ["ok"] True and a ["result"]: [_request] returns that result.
    It has sent the same request once per attempt to one open session,
    logged one Retrying record per failed attempt, numbered from 1, and
    released every response. *)
Theorem request_returns_result_after_retries (w : World) (data : list Field)
    (es : list exn) (status : Z) (d : gmap string json) (v : json) :
  sessions_below_next w →
  to_form_data params files = inr data →
  (length es < MAX_RETRIES)%nat →
  (∀ k e, es !! k = Some e → retried (transport (length (sent w) + k)) e) →
  transport (length (sent w) + length es)
  = Responds (mkResponse status None (Normal (JDict d))) →
  d !! "ok" = Some (JBool true) →
  d !! "result" = Some v →
  ∃ s w',
    _request token route method params files request_timeout w = (Normal v, w')
    ∧ sent w' = sent w ++ replicate (length es + 1)
                  (request_of s token route method data request_timeout)
    ∧ unreleased w' = unreleased w
    ∧ log w' = log w ++ debug_records debug_enabled request_description
               ++ retrying_records 0 request_description es.
Proof.
  intros Hwf Hdata Hlen Hes Hreply Hok Hres.
  destruct (request_retried w data es Hwf Hdata ltac:(lia) Hes)
    as (s & w1 & Hrun & Hopen & Hsent & Hunrel & Hlog).
  exists s. eexists. split.
  - rewrite Hrun. destruct (MAX_RETRIES - length es) as [|left] eqn:Hleft; [lia|].
    cbn [retry].
    rewrite (attempt_success s token route method params files request_timeout
               data Hdata w1 status d v Hopen); [reflexivity| |done|done].
    rewrite Hsent, length_app, length_replicate. exact Hreply.
  - simpl. rewrite Hsent, Hunrel, Hlog. split; [|done].
    rewrite <- (assoc_L (++)). f_equal.
    by rewrite replicate_add.
Qed.

(** X23.  A reply that makes an attempt fail for good (an ApiException, an
    exception outside Exception, a body that is not JSON, a JSON that is not
    a dict with ["ok"] True) ends [_request] with that exception at once: no
    further request is sent, no Retrying record is logged for it, and
    nothing says that the request did not succeed. *)
Theorem request_final_failure_is_not_retried (w : World) (data : list Field)
    (es : list exn) (e : exn) :
  sessions_below_next w →
  to_form_data params files = inr data →
  (length es < MAX_RETRIES)%nat →
  (∀ k e, es !! k = Some e → retried (transport (length (sent w) + k)) e) →
  final_failure (transport (length (sent w) + length es)) e →
  ∃ s w' records,
    _request token route method params files request_timeout w = (Raise e, w')
    ∧ sent w' = sent w ++ replicate (length es + 1)
                  (request_of s token route method data request_timeout)
    ∧ unreleased w' = unreleased w
    ∧ log w' = log w ++ debug_records debug_enabled request_description
               ++ retrying_records 0 request_description es ++ records
    ∧ (length records ≤ 1)%nat.
Proof.
  intros Hwf Hdata Hlen Hes Hfinal.
  destruct (request_retried w data es Hwf Hdata ltac:(lia) Hes)
    as (s & w1 & Hrun & Hopen & Hsent & Hunrel & Hlog).
  destruct (attempt_final s token route method params files request_timeout
              data Hdata w1 e Hopen) as (records & Htry & Hrecords).
  { rewrite Hsent, length_app, length_replicate. exact Hfinal. }
  exists s. eexists. exists records. split.
  - rewrite Hrun. destruct (MAX_RETRIES - length es) as [|left] eqn:Hleft; [lia|].
    cbn [retry]. rewrite Htry.
    destruct (final_failure_classes _ _ Hfinal) as [-> | He]; [reflexivity|].
    rewrite He. by destruct (is_ApiException e).
  - simpl. rewrite Hsent, Hunrel, Hlog. split; [|split; [done|]].
    + rewrite <- (assoc_L (++)). f_equal. by rewrite replicate_add.
    + split; [|done]. by rewrite <- !(assoc_L (++)).
Qed.

(** X24.  When [MAX_RETRIES] attempts in a row fail with exceptions that are
    tried again, [_request] has sent the request [MAX_RETRIES] times, logs
    that the request did not succeed after the Retrying records, and raises
    the exception of the last attempt. *)
Theorem request_raises_last_exception_after_max_retries (w : World)
    (data : list Field) (es : list exn) (e : exn) :
  sessions_below_next w →
  to_form_data params files = inr data →
  length es = MAX_RETRIES →
  (∀ k e, es !! k = Some e → retried (transport (length (sent w) + k)) e) →
  last es = Some e →
  ∃ s w',
    _request token route method params files request_timeout w = (Raise e, w')
    ∧ sent w' = sent w ++ replicate MAX_RETRIES
                  (request_of s token route method data request_timeout)
    ∧ unreleased w' = unreleased w
    ∧ log w' = log w ++ debug_records debug_enabled request_description
               ++ retrying_records 0 request_description es
               ++ [DidntSucceed request_description].
Proof.
  intros Hwf Hdata Hlen Hes Hlast.
  destruct (request_retried w data es Hwf Hdata ltac:(lia) Hes)
    as (s & w1 & Hrun & Hopen & Hsent & Hunrel & Hlog).
  exists s. eexists. split.
  - rewrite Hrun, Hlen, Nat.sub_diag, Hlast. reflexivity.
  - simpl. rewrite Hsent, Hunrel, Hlog, Hlen. split; [done|]. split; [done|].
    by rewrite <- !(assoc_L (++)).
Qed.


(** Attempts that all fail with the same exception without sending. *)
Lemma retry_constant_failure (left n : nat) (last_exception : option exn)
    (description : string) (try : M World (option json)) (e : exn) (w : World) :
  (∀ w, try w = (Raise e, w)) →
  is_Exception e = true → is_ApiException e = false →
  retry left n last_exception description try w
  = match (if decide (left = 0) then last_exception else Some e) with
    | Some e' =>
        (Raise e',
         after_sending (request_of 0 "" "" "" [] None) 0
           (retrying_records n description (replicate left e)
            ++ [DidntSucceed description]) w)
    | None => (Normal JNull, w)
    end.
Proof.
  intros Htry He Hapi. revert n last_exception w.
  induction left as [|left IH]; intros n last_exception w.
  - simpl. destruct last_exception as [e'|]; [|done].
    unfold mbind, M_bind, logger, modify, raise, after_sending. simpl.
    by rewrite app_nil_r.
  - cbn [retry]. rewrite Htry, Hapi, He. unfold mbind, M_bind, logger, modify.
    rewrite IH. destruct (decide (S left = 0)) as [|_]; [done|].
    assert (Hsome : (if decide (left = 0) then Some e else Some e) = Some e)
      by (by destruct (decide (left = 0))).
    rewrite Hsome. f_equal.
    change (replicate (S left) e) with (e :: replicate left e).
    rewrite retrying_records_cons. unfold after_sending.
    cbn [sent unreleased log session sessions next_session].
    cbn [replicate]. rewrite !app_nil_r. f_equal.
    replace (n + 1) with (S n) by lia.
    by rewrite <- !(assoc_L (++)).
Qed.

(** With a tuple of a length other than 2 among the files, once the
    description of the request is made. *)
Lemma request_with_bad_tuple_described (w : World) (key : string) (len : nat) :
  sessions_below_next w →
  (key, BadTuple len) ∈ default [] files →
  ∃ w',
    _request token route method params files request_timeout w
    = (Raise (OtherException "ValueError"), w')
    ∧ sent w' = sent w
    ∧ unreleased w' = unreleased w
    ∧ log w' = log w ++ debug_records debug_enabled request_description
               ++ retrying_records 0 request_description
                    (replicate MAX_RETRIES (OtherException "ValueError"))
               ++ [DidntSucceed request_description].
Proof.
  intros Hwf Hbad.
  assert (Hdata : to_form_data params files = inl (OtherException "ValueError")).
  { unfold to_form_data.
    assert (H : files_fields (default [] files)
                = inl (OtherException "ValueError")).
    { induction (default [] files) as [|[k f] l IH];
        [by apply elem_of_nil in Hbad|].
      simpl. apply elem_of_cons in Hbad as [[= <- <-]|Hbad]; [done|].
      rewrite (IH Hbad). by destruct f. }
    by rewrite H. }
  destruct (get_session_for_request w Hwf)
    as (s & w0 & Hget & Hopen & Hsent & Hunrel & Hlog).
  rewrite (request_unfold w w0 _ Hget).
  rewrite (retry_constant_failure MAX_RETRIES 0 None request_description _
             (OtherException "ValueError")).
  - eexists. split; [reflexivity|]. unfold after_sending. simpl.
    rewrite !app_nil_r, Hsent, Hunrel, Hlog. split; [done|]. split; [done|].
    by rewrite <- !(assoc_L (++)).
  - intros w1. unfold Api.attempt. by rewrite Hdata.
  - done.
  - done.
Qed.

End described.

(** X25.  With a tuple of a length other than 2 among the files, [_request]
    ends with an exception and no request reaches the session.  When the
    logger is enabled for DEBUG and making the description of the request
    raises, that exception leaves [_request] before the first attempt and
    nothing is logged.  Otherwise every attempt fails with ValueError before
    anything is sent: the error is tried again [MAX_RETRIES] times like a
    failure of the network, and the ValueError is raised in the end. *)
Theorem request_with_bad_tuple_sends_nothing (w : World) (key : string) (len : nat) :
  sessions_below_next w →
  (key, BadTuple len) ∈ default [] files →
  ∃ e w',
    _request token route method params files request_timeout w = (Raise e, w')
    ∧ sent w' = sent w
    ∧ unreleased w' = unreleased w
    ∧ match description with
      | inl e_description => e = e_description ∧ log w' = log w
      | inr request_description =>
          e = OtherException "ValueError"
          ∧ log w' = log w ++ debug_records debug_enabled request_description
                     ++ retrying_records 0 request_description
                          (replicate MAX_RETRIES (OtherException "ValueError"))
                     ++ [DidntSucceed request_description]
      end.
Proof.
  intros Hwf Hbad.
  destruct (get_session_for_request w Hwf)
    as (s & w0 & Hget & _ & Hsent & Hunrel & Hlog).
  destruct description as [e_description|request_description] eqn:Hdescribed.
  - exists e_description, w0. split; [|done].
    unfold Api._request. unfold mbind at 1, M_bind at 1.
    by rewrite Hget, Hdescribed.
  - destruct (request_with_bad_tuple_described request_description Hdescribed
                w key len Hwf Hbad) as (w' & Hrun & Hsent' & Hunrel' & Hlog').
    by exists (OtherException "ValueError"), w'.
Qed.

Lemma after_sending_twice (request : Sent) (a b : nat)
    (r1 r2 : list LogRecord) (w : World) :
  after_sending request a r1 (after_sending request b r2 w)
  = after_sending request (b + a) (r2 ++ r1) w.
Proof.
  unfold after_sending. simpl.
  by rewrite replicate_add, <- !(assoc_L (++)).
Qed.

Lemma after_sending_nothing (request : Sent) (w : World) :
  after_sending request 0 [] w = w.
Proof. unfold after_sending. simpl. rewrite !app_nil_r. by destruct w. Qed.

(** What one attempt does to the process, in every case: the request it
    would send is fixed by its arguments. *)
Lemma attempt_effect (session : option nat) :
  ∃ s data, ∀ w w' res,
    attempt session token route method params files request_timeout w = (res, w') →
    ∃ sends records,
      (sends ≤ 1)%nat
      ∧ w' = after_sending (request_of s token route method data request_timeout)
               sends records w.
Proof.
  destruct session as [s|]; cycle 1.
  { exists 0, []. intros w1 w1' res1 [= <- <-]. exists 0, [].
    split; [lia|]. by rewrite after_sending_nothing. }
  destruct (to_form_data params files) as [e|data] eqn:Hdata.
  { exists s, []. intros w1 w1' res1. unfold Api.attempt. rewrite Hdata.
    intros [= <- <-]. exists 0, []. split; [lia|].
    by rewrite after_sending_nothing. }
  exists s, data. intros w1 w1' res1 Hrun.
  destruct (sessions w1 !! s) as [cs|] eqn:Hcs; cycle 1.
  { unfold Api.attempt in Hrun. rewrite Hdata in Hrun.
    unfold mbind, M_bind, async_with_as, Api.ClientSession_request in Hrun.
    rewrite Hcs in Hrun. injection Hrun as <- <-.
    exists 0, []. split; [lia|]. by rewrite after_sending_nothing. }
  destruct (closed cs) eqn:Hclosed.
  { unfold Api.attempt in Hrun. rewrite Hdata in Hrun.
    unfold mbind, M_bind, async_with_as, Api.ClientSession_request in Hrun.
    rewrite Hcs, Hclosed in Hrun. injection Hrun as <- <-.
    exists 0, []. split; [lia|]. by rewrite after_sending_nothing. }
  rewrite (attempt_unfold s token route method params files request_timeout
             data Hdata w1 cs Hcs Hclosed) in Hrun.
  destruct (transport (length (sent w1))) as [e|response].
  { injection Hrun as <- <-. exists 1, []. split; [lia|].
    unfold after_sending. simpl. by rewrite app_nil_r. }
  cbv zeta in Hrun.
  destruct (_check_response response _) as [res2 w2] eqn:Hcheck.
  apply check_response_only_logs in Hcheck as (records & -> & Hlen).
  exists 1, records. split; [lia|].
  destruct res2 as [j|e]; [|by injection Hrun as <- <-].
  destruct (truth j); [|by injection Hrun as <- <-].
  unfold getitem_result in Hrun.
  destruct j as [| | | | | |d]; try (by injection Hrun as <- <-).
  destruct (d !! "result"); by injection Hrun as <- <-.
Qed.

Lemma retry_effect (left n : nat) (last_exception : option exn)
    (description : string) (session : option nat) (w w' : World)
    (res : outcome json) :
  retry left n last_exception description
    (attempt session token route method params files request_timeout) w
  = (res, w') →
  ∃ s data sends records,
    (sends ≤ left)%nat
    ∧ w' = after_sending (request_of s token route method data request_timeout)
             sends records w.
Proof.
  destruct (attempt_effect session) as (s & data & Hstep).
  intros Hrun. exists s, data. revert n last_exception w w' res Hrun.
  induction left as [|left IH]; intros n last_exception w w' res Hrun.
  - exists 0. simpl in Hrun. destruct last_exception as [e|].
    + unfold mbind, M_bind, logger, modify, raise in Hrun.
      injection Hrun as <- <-. exists [DidntSucceed description].
      split; [lia|]. unfold after_sending. simpl. by rewrite app_nil_r.
    + injection Hrun as <- <-. exists []. split; [lia|].
      by rewrite after_sending_nothing.
  - cbn [retry] in Hrun.
    destruct (attempt session token route method params files request_timeout w)
      as [res1 w1] eqn:Htry.
    destruct (Hstep _ _ _ Htry) as (sends1 & records1 & Hs1 & ->).
    destruct res1 as [[v|]|e].
    + injection Hrun as <- <-. exists sends1, records1. split; [lia|done].
    + destruct (IH _ _ _ _ _ Hrun) as (sends2 & records2 & Hs2 & ->).
      rewrite after_sending_twice. eexists _, _. split; [|done]. lia.
    + destruct (is_ApiException e).
      { injection Hrun as <- <-. exists sends1, records1. split; [lia|done]. }
      destruct (is_Exception e); cycle 1.
      { injection Hrun as <- <-. exists sends1, records1. split; [lia|done]. }
      unfold mbind, M_bind, logger, modify in Hrun.
      destruct (IH _ _ _ _ _ Hrun) as (sends2 & records2 & Hs2 & ->).
      set (r := Retrying _ _ _ _).
      exists (sends1 + sends2), (records1 ++ [r] ++ records2). split; [lia|].
      unfold after_sending. simpl.
      by rewrite replicate_add, <- !(assoc_L (++)).
Qed.

(** X21.  Whatever the replies, the sessions and the arguments are, one call
    of [_request] gives at most [MAX_RETRIES] requests to a session, all of
    them the same request, and when it ends every response that it received
    has been released. *)
Theorem request_sends_at_most_max_retries (w : World) :
  ∃ res w' request sends,
    _request token route method params files request_timeout w = (res, w')
    ∧ (sends ≤ MAX_RETRIES)%nat
    ∧ sent w' = sent w ++ replicate sends request
    ∧ unreleased w' = unreleased w.
Proof.
  destruct (_request token route method params files request_timeout w)
    as [res0 w0'] eqn:Hreq0.
  exists res0, w0'.
  enough (∃ request sends,
            (sends ≤ MAX_RETRIES)%nat
            ∧ sent w0' = sent w ++ replicate sends request
            ∧ unreleased w0' = unreleased w)
    as (request & sends & H); [by exists request, sends|].
  replace w0' with
    (snd (_request token route method params files request_timeout w))
    by (by rewrite Hreq0).
  clear Hreq0 res0 w0'.
  destruct (get_session w) as [[session|e] w0] eqn:Hget.
  - assert (Hsame : sent w0 = sent w ∧ unreleased w0 = unreleased w).
    { unfold get_session in Hget.
      destruct (Api.session w) as [s0|].
      - destruct (sessions w !! s0) as [cs|]; [|done].
        destruct (closed cs || negb (loop_running cs));
          [|by injection Hget as <- <-].
        by injection Hget as <- <-.
      - by injection Hget as <- <-. }
    destruct Hsame as [Hsent Hunrel].
    destruct description as [e|request_description] eqn:Hdescribed.
    { exists (request_of 0 "" "" "" [] None), 0. split; [lia|].
      assert (Hreq : _request token route method params files request_timeout w
                     = (Raise e, w0)).
      { unfold Api._request. unfold mbind at 1, M_bind at 1.
        by rewrite Hget, Hdescribed. }
      rewrite Hreq. simpl. by rewrite app_nil_r, Hsent, Hunrel. }
    rewrite (request_unfold request_description Hdescribed w w0 _ Hget).
    match goal with
    | |- context [retry ?l ?n ?le ?d ?t ?w1] =>
        destruct (retry l n le d t w1) as [res w'] eqn:Hrun
    end.
    destruct (retry_effect _ _ _ _ _ _ _ _ Hrun)
      as (s & data & sends & records & Hsends & ->).
    eexists _, sends. split; [done|].
    unfold after_sending. simpl. rewrite app_nil_r, Hsent, Hunrel. done.
  - exists (request_of 0 "" "" "" [] None), 0. split; [lia|].
    assert (Hreq : _request token route method params files request_timeout w
                   = (Raise e, w0)).
    { unfold Api._request. unfold mbind at 1, M_bind at 1. by rewrite Hget. }
    rewrite Hreq.
    assert (Hsame : w0 = w).
    { unfold get_session in Hget.
      destruct (Api.session w) as [s0|];
        [|by cbv [mbind M_bind init_session modify gets] in Hget].
      destruct (sessions w !! s0) as [cs|]; [|by injection Hget as <- <-].
      destruct (closed cs || negb (loop_running cs));
        by cbv [mbind M_bind init_session modify gets] in Hget. }
    subst w0. simpl. by rewrite app_nil_r.
Qed.

End whole_request.

End request.
End ApiRequestProperties.

(** ** The properties of telebot/api.py on the example process *)

Module ApiExamples.
Import Api ApiState ApiReplies ApiScenario ApiProperties ApiSessionProperties.

Lemma started_sessions_below_next : sessions_below_next started.
Proof.
  split.
  - intros i [cs Hcs].
    change (sessions started) with (∅ : gmap nat ClientSession) in Hcs.
    by rewrite lookup_empty in Hcs.
  - intros s Hs. discriminate Hs.
Defined.

Lemma with_session_sessions_below_next : sessions_below_next with_session.
Proof.
  split.
  - intros i [cs Hcs].
    change (sessions with_session)
      with ({[ 0 := mkSession false true REQUEST_LIMIT ]} : gmap nat ClientSession)
      in Hcs.
    apply lookup_singleton_Some in Hcs as [<- _].
    change (next_session with_session) with 1. lia.
  - intros s [= <-]. eexists. reflexivity.
Defined.

(** The fields made of [params] and [files]. *)
Lemma form_data :
  to_form_data params files
  = inr [TextField "chat_id" "42"; TextField "text" "hello";
         FileField "photo" photo "cat.png";
         FileField "thumb" (Bytes "...") "small.png"].
Proof. vm_compute. reflexivity. Defined.

(** The name of the photo is the last component of its path. *)
Lemma extract_filename_is_slash_free_tail_witness :
  extract_filename photo = Some "cat.png"
  ∧ ∃ dir, "/tmp/cat.png" = dir +:+ "cat.png".
Proof.
  assert (H : extract_filename photo = Some "cat.png")
    by (vm_compute; reflexivity).
  split; [exact H|].
  destruct (extract_filename_is_slash_free_tail photo "cat.png" H)
    as (name & content & dir & Hobj & _ & _ & _ & Hname & _).
  exists dir. injection Hobj as <- _. exact Hname.
Defined.

(** The fields of the two params and the two files, in their order. *)
Lemma to_form_data_fields_witness :
  ∃ fields,
    to_form_data params files = inr fields
    ∧ field_name <$> fields = ["chat_id"; "text"; "photo"; "thumb"].
Proof.
  destruct (to_form_data_fields params files) as (fields & Hdata & Hnames & _).
  - intros key len Hin. simpl in Hin.
    repeat (apply elem_of_cons in Hin as [Hin|Hin]; [discriminate Hin|]).
    by apply elem_of_nil in Hin.
  - exists fields. split; [exact Hdata|exact Hnames].
Defined.

(** A tuple of three elements. *)
Lemma to_form_data_bad_tuple_witness :
  to_form_data params bad_files = inl (OtherException "ValueError").
Proof.
  apply (to_form_data_bad_tuple params bad_files "thumb" 3).
  simpl. apply elem_of_cons. right. apply elem_of_cons. left. reflexivity.
Defined.

(** The first call makes the session 0. *)
Lemma get_session_gives_usable_session_witness :
  ∃ s w', get_session started = (Normal (Some s), w') ∧ usable w' s.
Proof.
  destruct (get_session_gives_usable_session started started_sessions_below_next)
    as (s & w' & Hget & _ & Husable & _).
  exists s, w'. split; [exact Hget|exact Husable].
Defined.

(** The session 0 is closed, and the next one is not the session 0. *)
Lemma close_session_then_get_session_witness :
  ∃ w1 s' w2,
    close_session with_session = (Normal tt, w1)
    ∧ get_session w1 = (Normal (Some s'), w2)
    ∧ s' ≠ 0.
Proof.
  destruct (close_session_then_get_session with_session 0
              with_session_sessions_below_next eq_refl)
    as (w1 & s' & w2 & Hclose & _ & _ & _ & Hget & Hne & _).
  exists w1, s', w2. split; [exact Hclose|]. split; [exact Hget|exact Hne].
Defined.

End ApiExamples.

Module ApiRequestExamples.
Import Api ApiState ApiReplies ApiScenario ApiExamples ApiRequestProperties.

(** A response with the status 500 and a JSON that says ok is accepted. *)
Lemma check_response_accepts_ok_dicts_only_witness :
  _check_response (mkResponse 500 None (Normal (JDict ok_reply))) started
  = (Normal (JDict ok_reply), started)
  ∧ ok_reply !! "ok" = Some (JBool true).
Proof.
  assert (H : _check_response (mkResponse 500 None (Normal (JDict ok_reply))) started
              = (Normal (JDict ok_reply), started))
    by (vm_compute; reflexivity).
  split; [exact H|].
  destruct (check_response_accepts_ok_dicts_only _ _ _ _ H)
    as (_ & _ & _ & (d & Hd & Hok) & _).
  injection Hd as <-. exact Hok.
Defined.

(** Two connections fail and the third request is answered with 7. *)
Lemma request_returns_result_after_retries_witness :
  ∃ w',
    _request flaky true describe "TOKEN" "sendPhoto" "post" params files None started
    = (Normal (JInt 7), w')
    ∧ length (sent w') = 3
    ∧ unreleased w' = 0
    ∧ log w' = [MakingRequest "post sendPhoto";
                Retrying 1 5 "post sendPhoto" connection_error;
                Retrying 2 5 "post sendPhoto" connection_error].
Proof.
  destruct (request_returns_result_after_retries flaky true describe
              "TOKEN" "sendPhoto" "post" params files None "post sendPhoto"
              eq_refl started _ [connection_error; connection_error] 200
              ok_reply (JInt 7) started_sessions_below_next form_data)
    as (s & w' & Hrun & Hsent & Hunrel & Hlog).
  - simpl. unfold MAX_RETRIES. lia.
  - intros [|[|k]] e Hk; try discriminate Hk; injection Hk as <-;
      by apply retried_connection.
  - reflexivity.
  - vm_compute. reflexivity.
  - vm_compute. reflexivity.
  - exists w'. split; [exact Hrun|]. rewrite Hsent, Hunrel, Hlog.
    split; [reflexivity|]. split; reflexivity.
Defined.

(** One connection fails, then the server answers that the token is wrong. *)
Lemma request_final_failure_is_not_retried_witness :
  ∃ w',
    _request unauthorized false describe "TOKEN" "sendPhoto" "post" params files
      None started
    = (Raise ApiHTTPException, w')
    ∧ length (sent w') = 2.
Proof.
  destruct (request_final_failure_is_not_retried unauthorized false describe
              "TOKEN" "sendPhoto" "post" params files None
              "<request description not available>"
              eq_refl started _ [connection_error] ApiHTTPException
              started_sessions_below_next form_data)
    as (s & w' & records & Hrun & Hsent & _).
  - simpl. unfold MAX_RETRIES. lia.
  - intros [|k] e Hk; try discriminate Hk; injection Hk as <-.
    by apply retried_connection.
  - apply (final_not_ok 401 (JDict error_reply)). vm_compute. reflexivity.
  - exists w'. split; [exact Hrun|]. rewrite Hsent. reflexivity.
Defined.

(** The server cannot be reached. *)
Lemma request_raises_last_exception_after_max_retries_witness :
  ∃ w',
    _request unreachable false describe "TOKEN" "sendPhoto" "post" params files
      None started
    = (Raise connection_error, w')
    ∧ length (sent w') = 5
    ∧ last (log w') = Some (DidntSucceed "<request description not available>").
Proof.
  destruct (request_raises_last_exception_after_max_retries unreachable false
              describe "TOKEN" "sendPhoto" "post" params files None
              "<request description not available>"
              eq_refl started _ (replicate 5 connection_error) connection_error
              started_sessions_below_next form_data)
    as (s & w' & Hrun & Hsent & _ & Hlog).
  - reflexivity.
  - intros k e Hk. apply lookup_replicate in Hk as [-> _].
    by apply retried_connection.
  - reflexivity.
  - exists w'. split; [exact Hrun|]. rewrite Hsent, Hlog.
    split; reflexivity.
Defined.

(** The thumbnail is a tuple of three elements: nothing is sent. *)
Lemma request_with_bad_tuple_sends_nothing_witness :
  ∃ w',
    _request flaky false describe "TOKEN" "sendPhoto" "post" params bad_files
      None started
    = (Raise (OtherException "ValueError"), w')
    ∧ sent w' = []
    ∧ length (log w') = 6.
Proof.
  destruct (request_with_bad_tuple_sends_nothing flaky false describe
              "TOKEN" "sendPhoto" "post" params bad_files None
              started "thumb" 3 started_sessions_below_next)
    as (e & w' & Hrun & Hsent & _ & He & Hlog).
  - simpl. apply elem_of_cons. right. apply elem_of_cons. left. reflexivity.
  - exists w'. rewrite He in Hrun. split; [exact Hrun|]. rewrite Hsent, Hlog.
    split; reflexivity.
Defined.

(** With the logger enabled for DEBUG and a description that cannot be made,
    the request ends before its first attempt. *)
Example request_ends_when_description_raises :
  _request flaky true describe_raises "TOKEN" "sendPhoto" "post" params bad_files
    None with_session
  = (Raise (OtherException "IndexError"), with_session).
Proof. vm_compute. reflexivity. Qed.

(** With every reply an error of the server, one request is sent. *)
Example request_to_failing_server_sends_once :
  sent (snd (_request (λ _, Responds (mkResponse 401 None (Normal (JDict error_reply))))
               false describe "TOKEN" "getMe" "get" None None None started))
  = [mkSent 0 "get" "https://api.telegram.org/botTOKEN/getMe" [] None].
Proof. vm_compute. reflexivity. Qed.

End ApiRequestExamples.
